(** * simple-smtp-monitoring: a shallow embedding of [main.py]

    The script probes a list of endpoints (HTTP(S) URLs and [host:port]
    pairs), records one row per probe in an SQLite table [events] and mails
    an alert for every failed probe ([run_regular]); in its second mode it
    mails a digest of the last 24 hours of the table ([run_resume]).

    Layout of the development:
    - [PyStr]: the [str] methods the script calls;
    - exceptions and results;
    - [Ipaddress] and [Urllib]: a model of CPython's
      [urllib.parse.urlparse], used to run the script on concrete
      descriptors;
    - the platform interface (URL parser, network, mail relay, event store,
      clock, uuid source), which the script only reaches through library
      calls, and the monad of the script;
    - the functions of [main.py], in the order of the file;
    - [Sim]: simulated platforms;
    - the vocabulary of the statements, and the properties. *)

From Stdlib Require Import ZArith List String Ascii Bool Lia.
From Stdlib Require Import DecimalString.
Import ListNotations.

Local Open Scope string_scope.
Local Open Scope Z_scope.

(* ===================================================================== *)
(** ** Python strings *)
(* ===================================================================== *)

(** A [str] is modelled as a [string] whose characters are the code points
    below 256. *)
Module PyStr.

Definition chr (n : nat) : string := String (ascii_of_nat n) "".

Definition nl : string := chr 10.
Definition tab : string := chr 9.

Definition code (c : ascii) : nat := nat_of_ascii c.

Definition in_range (lo hi : nat) (c : ascii) : bool :=
  (Nat.leb lo (code c) && Nat.leb (code c) hi)%bool.

(** ['0'..'9'] *)
Definition is_decimal (c : ascii) : bool := in_range 48 57 c.

(** The characters [str.isdigit] accepts: the decimal digits and, below
    256, the superscripts U+00B2, U+00B3 and U+00B9. *)
Definition is_digit_char (c : ascii) : bool :=
  (is_decimal c || Nat.eqb (code c) 178 || Nat.eqb (code c) 179
   || Nat.eqb (code c) 185)%bool.

Fixpoint forallb_str (p : ascii -> bool) (s : string) : bool :=
  match s with
  | EmptyString => true
  | String c r => (p c && forallb_str p r)%bool
  end.

Fixpoint existsb_str (p : ascii -> bool) (s : string) : bool :=
  match s with
  | EmptyString => false
  | String c r => (p c || existsb_str p r)%bool
  end.

(** [s.isdigit()]: every character is a digit and there is at least one. *)
Definition isdigit (s : string) : bool :=
  match s with
  | EmptyString => false
  | String _ _ => forallb_str is_digit_char s
  end.

(** [c in s] for a one-character [c]. *)
Definition contains (c : ascii) (s : string) : bool :=
  existsb_str (Ascii.eqb c) s.

(** [s.split(sep)] for a one-character separator: the pieces between the
    occurrences of [sep], [n + 1] of them for [n] occurrences. *)
Fixpoint split (sep : ascii) (s : string) : list string :=
  match s with
  | EmptyString => [EmptyString]
  | String c r =>
      match split sep r with
      | [] => [String c EmptyString]
      | p :: ps =>
          if Ascii.eqb c sep then EmptyString :: p :: ps
          else String c p :: ps
      end
  end.

(** [sep.join(xs)] *)
Fixpoint join (sep : string) (xs : list string) : string :=
  match xs with
  | [] => EmptyString
  | [x] => x
  | x :: r => x ++ sep ++ join sep r
  end.

(** [s.partition(c)]: the text before the first [c] and the text after
    it, or [None] when [c] does not occur. *)
Fixpoint partition (c : ascii) (s : string) : option (string * string) :=
  match s with
  | EmptyString => None
  | String a r =>
      if Ascii.eqb a c then Some (EmptyString, r)
      else match partition c r with
           | Some (x, y) => Some (String a x, y)
           | None => None
           end
  end.

(** [s.rpartition(c)]: the same at the last occurrence. *)
Fixpoint rpartition (c : ascii) (s : string) : option (string * string) :=
  match s with
  | EmptyString => None
  | String a r =>
      match rpartition c r with
      | Some (x, y) => Some (String a x, y)
      | None => if Ascii.eqb a c then Some (EmptyString, r) else None
      end
  end.

Fixpoint lstrip (p : ascii -> bool) (s : string) : string :=
  match s with
  | EmptyString => EmptyString
  | String c r => if p c then lstrip p r else s
  end.

Fixpoint remove (p : ascii -> bool) (s : string) : string :=
  match s with
  | EmptyString => EmptyString
  | String c r => if p c then remove p r else String c (remove p r)
  end.

Definition rstrip (p : ascii -> bool) (s : string) : string :=
  let fix go (s : string) : option string :=
    (* [None]: everything from here on is stripped *)
    match s with
    | EmptyString => None
    | String c r =>
        match go r with
        | Some r' => Some (String c r')
        | None => if p c then None else Some (String c EmptyString)
        end
    end in
  match go s with Some r => r | None => EmptyString end.

Definition lower_char (c : ascii) : ascii :=
  if in_range 65 90 c then ascii_of_nat (code c + 32) else c.

Fixpoint lower (s : string) : string :=
  match s with
  | EmptyString => EmptyString
  | String c r => String (lower_char c) (lower r)
  end.

Definition is_ascii_alpha (c : ascii) : bool :=
  (in_range 65 90 c || in_range 97 122 c)%bool.

Definition startswith (p s : string) : bool := String.prefix p s.

(** [str(n)] for an [int]. *)
Definition str_of_int (n : Z) : string :=
  NilZero.string_of_int (Z.to_int n).

(** The characters [str.strip()] treats as white space, below 256. *)
Definition is_space (c : ascii) : bool :=
  (in_range 9 13 c || in_range 28 32 c || Nat.eqb (code c) 133
   || Nat.eqb (code c) 160)%bool.

(** The characters [int()] skips around a literal, below 256: the ASCII
    white space, and U+0085 and U+00A0, which it first turns into spaces.
    The separators U+001C to U+001F are white space for [str.strip()] but
    not for [int()]. *)
Definition is_int_space (c : ascii) : bool :=
  (in_range 9 13 c || Nat.eqb (code c) 32 || Nat.eqb (code c) 133
   || Nat.eqb (code c) 160)%bool.

(** The number of characters of [s] that satisfy [p]. *)
Fixpoint count_str (p : ascii -> bool) (s : string) : nat :=
  match s with
  | EmptyString => O
  | String c r => ((if p c then 1 else 0) + count_str p r)%nat
  end.

(** The digits of a decimal literal as [int()] reads them: decimal digits,
    single underscores allowed between two digits.  [acc] is the value read
    so far, [after_digit] tells whether the previous character was a
    digit. *)
Fixpoint int_digits (s : string) (acc : Z) (after_digit : bool) : option Z :=
  match s with
  | EmptyString => if after_digit then Some acc else None
  | String c r =>
      if is_decimal c then
        int_digits r (10 * acc + Z.of_nat (code c - 48)) true
      else if (Ascii.eqb c "_" && after_digit)%bool then
        match r with
        | String d _ => if is_decimal d then int_digits r acc false else None
        | EmptyString => None
        end
      else None
  end.

(** [sys.get_int_max_str_digits()]: the interpreter's default, which the
    script does not change. *)
Definition int_max_str_digits : Z := 4300.

(** A literal without sign.  It is refused when it has more digits than
    the limit; underscores do not count, leading zeros do. *)
Definition int_literal (body : string) : option Z :=
  if int_max_str_digits <? Z.of_nat (count_str is_decimal body) then None
  else int_digits body 0 false.

(** [int(s)] for a [str]: surrounding white space is dropped, one sign is
    allowed, the rest must be a decimal literal within the limit.  [None]
    stands for the [ValueError] the call raises. *)
Definition int_of_str (s : string) : option Z :=
  match rstrip is_int_space (lstrip is_int_space s) with
  | String "+" r => int_literal r
  | String "-" r => option_map Z.opp (int_literal r)
  | t => int_literal t
  end.

End PyStr.

(* ===================================================================== *)
(** ** Exceptions and results *)
(* ===================================================================== *)

(** The exceptions the script can meet.  All of them are instances of
    [Exception]; interrupts ([KeyboardInterrupt], [SystemExit]) are outside
    the model. *)
Inductive PyExc : Type :=
| MonitoringException (msg : string)
    (** raised by [main.py] itself *)
| UnpackError (got : nat)
    (** the [ValueError] of [host, port = xs] when [xs] has [got <> 2]
        elements *)
| IntLiteralError (literal : string)
    (** the [ValueError] of [int(literal)] *)
| AddressError (address : string)
    (** the [ValueError] of [ipaddress.ip_address(address)] *)
| HTTPError (status : Z) (reason : string)
    (** [urllib.error.HTTPError] *)
| LibraryError (cls msg : string).
    (** any other exception a library call raises: [URLError], [OSError],
        [TimeoutError], [SMTPException], [sqlite3.Error], the other
        [ValueError]s of [urlparse] *)

Inductive Result (A : Type) : Type :=
| Ok (a : A)
| Raised (e : PyExc).

Arguments Ok {A} a.
Arguments Raised {A} e.

Definition is_HTTPError (e : PyExc) : bool :=
  match e with HTTPError _ _ => true | _ => false end.

(** [urllib.parse.ParseResult] *)
Record ParseResult : Type := mkParseResult {
  scheme : string;
  netloc : string;
  path : string;
  params : string;
  query : string;
  fragment : string
}.

(* ===================================================================== *)
(** ** [urllib.parse.urlparse] *)
(* ===================================================================== *)

(** [ipaddress.ip_address] on a [str]: which strings are IPv4 addresses
    and which are IPv6 addresses. *)
Module Ipaddress.
Import PyStr.

Inductive Version : Type := IPv4 | IPv6.

Definition octet_value (o : string) : Z :=
  fold_left (fun acc c => 10 * acc + Z.of_nat (code c - 48))
    (list_ascii_of_string o) 0.

(** [_parse_octet]: one to three decimal digits, no leading zero, at most
    255. *)
Definition valid_octet (o : string) : bool :=
  match o with
  | EmptyString => false
  | String c _ =>
      forallb_str is_decimal o
      && Nat.leb (String.length o) 3
      && ((o =? "0")%string || negb (Ascii.eqb c "0"))
      && (octet_value o <=? 255)
  end.

(** [IPv4Address(s)] does not raise. *)
Definition is_ipv4 (s : string) : bool :=
  negb (contains "/" s)
  && Nat.eqb (List.length (split "." s)) 4
  && forallb valid_octet (split "." s).

Definition is_hex_char (c : ascii) : bool :=
  (is_decimal c || in_range 65 70 c || in_range 97 102 c)%bool.

(** [_parse_hextet]: one to four hexadecimal digits. *)
Definition valid_hextet (h : string) : bool :=
  match h with
  | EmptyString => false
  | String _ _ => forallb_str is_hex_char h && Nat.leb (String.length h) 4
  end.

Definition is_empty (s : string) : bool :=
  match s with EmptyString => true | String _ _ => false end.

(** The indices [i], counted from [i0], of the empty strings of [xs]. *)
Fixpoint empty_indices (i0 : nat) (xs : list string) : list nat :=
  match xs with
  | [] => []
  | x :: r =>
      if is_empty x then i0 :: empty_indices (S i0) r
      else empty_indices (S i0) r
  end.

(** The parts of [_ip_int_from_string] after the IPv4 suffix, if there is
    one, was replaced by its two hextets.  Only the validity of the
    hextets matters for the result, and the two that stand for the suffix
    are valid, so [0] is put in their place. *)
Definition ipv6_parts (addr : string) : option (list string) :=
  let parts := split ":" addr in
  if Nat.ltb (List.length parts) 3 then None
  else if contains "." (last parts "")
  then if is_ipv4 (last parts "")
       then Some (removelast parts ++ ["0"; "0"])%list
       else None
  else Some parts.

(** [_ip_int_from_string] of [IPv6Address] does not raise. *)
Definition valid_ipv6_groups (addr : string) : bool :=
  match ipv6_parts addr with
  | None => false
  | Some parts =>
      let n := List.length parts in
      if Nat.ltb 9 n then false
      else
        let first_empty := is_empty (hd "" parts) in
        let last_empty := is_empty (last parts "") in
        match empty_indices 1 (removelast (tl parts)) with
        | [] =>
            Nat.eqb n 8 && negb first_empty && negb last_empty
            && forallb valid_hextet parts
        | [skip_index] =>
            let parts_hi := if first_empty then (skip_index - 1)%nat
                            else skip_index in
            let parts_lo := if last_empty then (n - skip_index - 2)%nat
                            else (n - skip_index - 1)%nat in
            negb (first_empty && negb (Nat.eqb parts_hi 0))
            && negb (last_empty && negb (Nat.eqb parts_lo 0))
            && Nat.leb (parts_hi + parts_lo) 7
            && forallb valid_hextet (firstn parts_hi parts)
            && forallb valid_hextet (skipn (n - parts_lo) parts)
        | _ => false
        end
  end.

(** [IPv6Address(s)] does not raise: no slash, an optional non-empty
    scope id after [%], and a valid address before it. *)
Definition is_ipv6 (s : string) : bool :=
  negb (contains "/" s)
  && match partition "%" s with
     | None => valid_ipv6_groups s
     | Some (addr, scope_id) =>
         negb (is_empty scope_id) && negb (contains "%" scope_id)
         && valid_ipv6_groups addr
     end.

(** [ip_address(s)]: [None] stands for the [ValueError]. *)
Definition ip_address (s : string) : option Version :=
  if is_ipv4 s then Some IPv4
  else if is_ipv6 s then Some IPv6
  else None.

End Ipaddress.

(** A model of CPython 3.11's [urlsplit] and [urlparse] on [str]
    arguments.  The NFKC check of a non-ASCII network location is left
    out: for code points below 256 the normal form holds none of the
    characters it looks for, so that it never raises. *)
Module Urllib.
Import PyStr.

(** [scheme_chars] *)
Definition is_scheme_char (c : ascii) : bool :=
  (is_ascii_alpha c || is_decimal c || Ascii.eqb c "+" || Ascii.eqb c "-"
   || Ascii.eqb c ".")%bool.

(** [_WHATWG_C0_CONTROL_OR_SPACE] *)
Definition is_c0_or_space (c : ascii) : bool := Nat.leb (code c) 32.

(** [_UNSAFE_URL_BYTES_TO_REMOVE] *)
Definition is_unsafe (c : ascii) : bool :=
  (Nat.eqb (code c) 9 || Nat.eqb (code c) 13 || Nat.eqb (code c) 10)%bool.

(** [uses_params] *)
Definition uses_params : list string :=
  [""; "ftp"; "hdl"; "prospero"; "http"; "imap"; "https"; "shttp"; "rtsp";
   "rtspu"; "sip"; "sips"; "mms"; "sftp"; "tel"].

(** The scheme test of [urlsplit]: a colon at an index [i > 0], a first
    character that is an ASCII letter, and only scheme characters before
    the colon. *)
Definition split_scheme (url : string) : string * string :=
  match partition ":" url with
  | Some (String c0 pre, rest) =>
      if (is_ascii_alpha c0 && forallb_str is_scheme_char (String c0 pre))%bool
      then (lower (String c0 pre), rest)
      else (EmptyString, url)
  | _ => (EmptyString, url)
  end.

(** [_splitnetloc(url, 2)] on a [url] whose first two characters were
    dropped already: the text up to the first of [/?#], and the rest. *)
Fixpoint splitnetloc (s : string) : string * string :=
  match s with
  | EmptyString => (EmptyString, EmptyString)
  | String c r =>
      if (Ascii.eqb c "/" || Ascii.eqb c "?" || Ascii.eqb c "#")%bool
      then (EmptyString, s)
      else let (n, rest) := splitnetloc r in (String c n, rest)
  end.

(** The regular expression [\Av[a-fA-F0-9]+\..+\Z] of
    [_check_bracketed_host], on the text after the [v]: hexadecimal
    digits, at least one, up to the first dot, and after the dot at least
    one character, none of them a newline. *)
Definition is_ipvfuture_tail (s : string) : bool :=
  match partition "." s with
  | Some (String h hs, String r rs) =>
      forallb_str Ipaddress.is_hex_char (String h hs)
      && negb (existsb_str (fun c => Nat.eqb (code c) 10) (String r rs))
  | _ => false
  end.

(** [_check_bracketed_host] *)
Definition check_bracketed_host (hostname : string) : Result unit :=
  match hostname with
  | String "v" tail =>
      if is_ipvfuture_tail tail then Ok tt
      else Raised (LibraryError "ValueError" "IPvFuture address is invalid")
  | _ =>
      match Ipaddress.ip_address hostname with
      | None => Raised (AddressError hostname)
      | Some Ipaddress.IPv4 =>
          Raised (LibraryError "ValueError"
                    "An IPv4 address cannot be in brackets")
      | Some Ipaddress.IPv6 => Ok tt
      end
  end.

(** [_check_bracketed_netloc] *)
Definition check_bracketed_netloc (netloc : string) : Result unit :=
  let hostname_and_port :=
    match rpartition "@" netloc with
    | Some (_, after) => after
    | None => netloc
    end in
  match partition "[" hostname_and_port with
  | Some (before_bracket, bracketed) =>
      if negb (Ipaddress.is_empty before_bracket)
      then Raised (LibraryError "ValueError" "Invalid IPv6 URL")
      else
        let (hostname, port) :=
          match partition "]" bracketed with
          | Some (h, p) => (h, p)
          | None => (bracketed, EmptyString)
          end in
        if negb (Ipaddress.is_empty port) && negb (startswith ":" port)
        then Raised (LibraryError "ValueError" "Invalid IPv6 URL")
        else check_bracketed_host hostname
  | None =>
      check_bracketed_host
        match partition ":" hostname_and_port with
        | Some (h, _) => h
        | None => hostname_and_port
        end
  end.

Definition urlsplit (url0 : string)
  : Result (string * string * string * string * string) :=
  let url := remove is_unsafe (lstrip is_c0_or_space url0) in
  let (scheme, url) := split_scheme url in
  let after_netloc :=
    match url with
    | String "/" (String "/" r) =>
        let (netloc, rest) := splitnetloc r in
        if xorb (contains "[" netloc) (contains "]" netloc)
        then Raised (LibraryError "ValueError" "Invalid IPv6 URL")
        else if contains "[" netloc
        then match check_bracketed_netloc netloc with
             | Raised e => Raised e
             | Ok _ => Ok (netloc, rest)
             end
        else Ok (netloc, rest)
    | _ => Ok (EmptyString, url)
    end in
  match after_netloc with
  | Raised e => Raised e
  | Ok (netloc, url) =>
      let (url, fragment) :=
        match partition "#" url with
        | Some (u, f) => (u, f)
        | None => (url, EmptyString)
        end in
      let (url, query) :=
        match partition "?" url with
        | Some (u, q) => (u, q)
        | None => (url, EmptyString)
        end in
      Ok (scheme, netloc, url, query, fragment)
  end.

(** [_splitparams]; only called when [';' in url]. *)
Definition splitparams (url : string) : string * string :=
  match rpartition "/" url with
  | Some (head, tail) =>
      match partition ";" tail with
      | Some (t, p) => (head ++ "/" ++ t, p)
      | None => (url, EmptyString)
      end
  | None =>
      match partition ";" url with
      | Some (u, p) => (u, p)
      | None => (url, EmptyString)
      end
  end.

Definition urlparse (url : string) : Result ParseResult :=
  match urlsplit url with
  | Raised e => Raised e
  | Ok (scheme, netloc, url, query, fragment) =>
      let (url, params) :=
        if (existsb (String.eqb scheme) uses_params && contains ";" url)%bool
        then splitparams url
        else (url, EmptyString) in
      Ok (mkParseResult scheme netloc url params query fragment)
  end.

End Urllib.

(* ===================================================================== *)
(** ** The platform *)
(* ===================================================================== *)

(** [email.message.EmailMessage] as [send_notification] fills it in. *)
Record EmailMessage : Type := mkEmail {
  content : string;
  Subject : string;
  From_ : string;
  To : string
}.

(** A row of the table [events (id text, ts bigint, description text)]. *)
Record Event : Type := mkEvent {
  row_id : string;
  ts : Z;
  description : string
}.

(** A naive [datetime]: microseconds on the local wall clock. *)
Record datetime : Type := mkDatetime { wall_us : Z }.

(** [d - timedelta(hours=h)] *)
Definition minus_hours (d : datetime) (h : Z) : datetime :=
  mkDatetime (wall_us d - h * 3600 * 1000000).

(** [int(x)] for a time [x] in seconds, given in microseconds: truncation
    towards zero. *)
Definition int_seconds (us : Z) : Z := Z.quot us 1000000.

(** What the script asks of the network. *)
Inductive NetOp : Type :=
| HttpGet (url : string)
| TelnetOpen (host : string) (port : Z) (timeout : Z)
| TelnetClose.

(** Everything [main.py] reaches through a library call.  [World] is the
    state of the outside: servers, mail relay, database file, clock, random
    source.  A call that can raise returns a [Result]. *)
Record Platform : Type := mkPlatform {
  World : Type;
  (** [urllib.parse.urlparse(url)] *)
  urlparse : string -> Result ParseResult;
  (** [with urlopen(url) as response: response.read()] *)
  urlopen_read : string -> World -> Result unit * World;
  (** [Telnet().open(host=, port=, timeout=)] *)
  telnet_open : string -> Z -> Z -> World -> Result unit * World;
  (** building [msg] and [smtp.send_message(msg)] *)
  smtp_send_message : EmailMessage -> World -> Result unit * World;
  (** [cursor.execute("insert into events ...", row)] followed by
      [db.commit()]: [Ok] when both calls return, the exception of the
      first that raises otherwise *)
  sqlite_insert : Event -> World -> Result unit * World;
  (** [time.time()], in microseconds *)
  time_time : World -> Z * World;
  (** [str(uuid.uuid4())] *)
  uuid4 : World -> string * World;
  (** [datetime.now()] *)
  datetime_now : World -> datetime * World;
  (** [d.timestamp()], in microseconds since the epoch *)
  timestamp : datetime -> Z;
  (** [d.isoformat()] *)
  isoformat : datetime -> string;
  (** the stack frames and the final line that [traceback] prints for an
      exception, after the header *)
  tb_body : PyExc -> string
}.

Section Script.

Variable P : Platform.

(** The state a run works on: the outside world, the committed rows of
    the table [events] of [monitoring.db], and two logs kept for the
    statements: the messages the mail relay accepted and the network
    operations issued. *)
Record State : Type := mkState {
  world : World P;
  events : list Event;
  outbox : list EmailMessage;
  netlog : list NetOp
}.

(** Computations of the script: they change the state and return or
    raise.  The state reached when an exception is raised is kept, as
    effects done before a [raise] are. *)
Definition M (A : Type) : Type := State -> Result A * State.

Definition ret {A} (a : A) : M A := fun s => (Ok a, s).

Definition raise {A} (e : PyExc) : M A := fun s => (Raised e, s).

Definition bind {A B} (c : M A) (k : A -> M B) : M B :=
  fun s =>
    match c s with
    | (Ok a, s') => k a s'
    | (Raised e, s') => (Raised e, s')
    end.

(** [try: c  except Exception as e: h e] *)
Definition try_except {A} (c : M A) (h : PyExc -> M A) : M A :=
  fun s =>
    match c s with
    | (Ok a, s') => (Ok a, s')
    | (Raised e, s') => h e s'
    end.

Definition lift_result {A} (r : Result A) : M A := fun s => (r, s).

Definition lift_world {A} (f : World P -> A * World P) : M A :=
  fun s =>
    let (a, w) := f (world s) in
    (Ok a, mkState w (events s) (outbox s) (netlog s)).

Definition lift_world_result {A} (f : World P -> Result A * World P) : M A :=
  fun s =>
    let (r, w) := f (world s) in
    (r, mkState w (events s) (outbox s) (netlog s)).

Definition log_net (op : NetOp) : M unit :=
  fun s => (Ok tt, mkState (world s) (events s) (outbox s) (netlog s ++ [op])).

End Script.

Arguments ret {P A} a.
Arguments raise {P A} e.
Arguments bind {P A B} c k.
Arguments try_except {P A} c h.
Arguments lift_result {P A} r.
Arguments lift_world {P A} f.
Arguments lift_world_result {P A} f.
Arguments log_net {P} op.
Arguments world {P} s.
Arguments events {P} s.
Arguments outbox {P} s.
Arguments netlog {P} s.
Arguments mkState {P} world events outbox netlog.

Declare Scope script_scope.
Delimit Scope script_scope with script.
Notation "x <- c ;; k" := (bind c (fun x => k))
  (at level 61, c at next level, right associativity) : script_scope.
Notation "c ;; k" := (bind c (fun _ => k))
  (at level 61, right associativity) : script_scope.
Local Open Scope script_scope.

(** [for x in xs: body x] *)
Fixpoint for_each {P : Platform} {A} (xs : list A) (body : A -> M P unit)
  : M P unit :=
  match xs with
  | [] => ret tt
  | x :: r => body x ;; for_each r body
  end.

(* ===================================================================== *)
(** ** [main.py] *)
(* ===================================================================== *)

Section Main.

Variable P : Platform.

(** [traceback.format_exc()] in a handler of [e]. *)
Definition format_exc (e : PyExc) : string :=
  "Traceback (most recent call last):" ++ PyStr.nl ++ tb_body P e.

(** [find_url_type], lines 67-74. *)
Definition find_url_type (url : string) : Result string :=
  match urlparse P url with
  | Raised e => Raised e
  | Ok parsed =>
      if (scheme parsed =? "http")%string || (scheme parsed =? "https")%string
      then Ok "urllib"
      else if PyStr.isdigit (path parsed) then Ok "telnet"
      else Raised (MonitoringException ("cannot determine type: " ++ url))
  end.

(** [host, port = xs] *)
Definition unpack2 (xs : list string) : Result (string * string) :=
  match xs with
  | [host; port] => Ok (host, port)
  | _ => Raised (UnpackError (List.length xs))
  end.

(** [int(port)] *)
Definition py_int (s : string) : Result Z :=
  match PyStr.int_of_str s with
  | Some n => Ok n
  | None => Raised (IntLiteralError s)
  end.

(** The [try] suite of [telnet], lines 78-82.  [Telnet()] opens nothing
    and [close()] on an open connection is taken not to raise. *)
Definition telnet_try (url : string) : M P (bool * string) :=
  hp <- lift_result (unpack2 (PyStr.split ":" url)) ;;
  port <- lift_result (py_int (snd hp)) ;;
  log_net (TelnetOpen (fst hp) port 10) ;;
  lift_world_result (telnet_open P (fst hp) port 10) ;;
  log_net TelnetClose ;;
  ret (true, "").

(** [telnet], lines 76-84. *)
Definition telnet (url : string) : M P (bool * string) :=
  try_except (telnet_try url) (fun e => ret (false, format_exc e)).

(** The [try] suite of [request], lines 88-90. *)
Definition request_try (url : string) : M P (bool * string) :=
  log_net (HttpGet url) ;;
  lift_world_result (urlopen_read P url) ;;
  ret (true, "").

(** [request], lines 86-97.  The [except HTTPError] clause comes first. *)
Definition request (url : string) : M P (bool * string) :=
  try_except (request_try url)
    (fun e =>
       match e with
       | HTTPError status reason =>
           if status >=? 500 then ret (false, reason) else ret (true, "")
       | _ => ret (false, format_exc e)
       end).

(** [run_url], lines 99-108. *)
Definition run_url (url : string) : M P (bool * string) :=
  url_type <- lift_result (find_url_type url) ;;
  if (url_type =? "urllib")%string then request url
  else if (url_type =? "telnet")%string then telnet url
  else raise (MonitoringException ("cannot determine type: " ++ url)).

(** [send_notification], lines 110-116. *)
Definition send_notification (subject message from_email to_email : string)
  : M P unit :=
  let msg := mkEmail message subject from_email to_email in
  lift_world_result (smtp_send_message P msg) ;;
  (fun s =>
     (Ok tt, mkState (world s) (events s) (outbox s ++ [msg]) (netlog s))).

(** [build_message], lines 118-125. *)
Definition build_message (url context : string) : string :=
  PyStr.nl ++ "    Job check for " ++ url ++ " failed." ++ PyStr.nl
  ++ PyStr.nl
  ++ "    Exception:" ++ PyStr.nl
  ++ "    " ++ context ++ PyStr.nl
  ++ PyStr.nl
  ++ "    ".

(** [log_event], lines 127-130: the arguments of the [insert] are
    evaluated, then the row is inserted and committed.  The table holds
    the row once the commit has returned; when [execute] or [commit]
    raises, the exception leaves the function and the table is as it was.
    ([db.cursor()] on the connection that [get_config] opened is taken not
    to raise.) *)
Definition log_event (event : string) : M P unit :=
  id <- lift_world (uuid4 P) ;;
  now <- lift_world (time_time P) ;;
  let row := mkEvent id (int_seconds now) event in
  lift_world_result (sqlite_insert P row) ;;
  (fun s =>
     (Ok tt, mkState (world s) (events s ++ [row]) (outbox s) (netlog s))).

(** [select count( * ) from events where ...]: a scan of the table that
    counts the rows satisfying the condition. *)
Fixpoint select_count (where_ : Event -> bool) (rows : list Event) (c : Z)
  : Z :=
  match rows with
  | [] => c
  | r :: rest => select_count where_ rest (if where_ r then c + 1 else c)
  end.

(** The [where] clause of [query_event_count]. *)
Definition where_clause (event : string) (lo hi : Z) (r : Event) : bool :=
  (description r =? event)%string && (ts r >=? lo) && (ts r <=? hi).

(** [query_event_count], lines 132-135: the value the [select] returns on
    the rows of the table.  (The [select] is taken to return: a failure of
    the database on reading is not modelled.) *)
Definition query_event_count (event : string) (start end_ : datetime)
  : M P Z :=
  fun s =>
    (Ok (select_count
           (where_clause event (int_seconds (timestamp P start))
              (int_seconds (timestamp P end_)))
           (events s) 0),
     s).

(** The [config] dictionary, without the two handles ([smtp], [logdb])
    that the state stands for. *)
Record Config : Type := mkConfig {
  urls : list string;
  from_email : string;
  to_email : string
}.

(** The body of the loop of [run_regular], lines 146-152. *)
Definition run_regular_body (config : Config) (url : string) : M P unit :=
  r <- run_url url ;;
  if negb (fst r) then
    send_notification ("[URGENT] Service failed for url " ++ url)
      (build_message url (snd r)) (from_email config) (to_email config) ;;
    log_event ("failed " ++ url)
  else
    log_event ("success " ++ url).

(** [run_regular], lines 138-152. *)
Definition run_regular (config : Config) : M P unit :=
  for_each (urls config) (run_regular_body config).

(** The loop of [run_resume], lines 164-168: [url_status_list] grows by
    one triple per url. *)
Fixpoint resume_loop (yesterday today : datetime) (us : list string)
    (url_status_list : list (string * Z * Z)) : M P (list (string * Z * Z)) :=
  match us with
  | [] => ret url_status_list
  | url :: rest =>
      failed_count <- query_event_count ("failed " ++ url) yesterday today ;;
      success_count <- query_event_count ("success " ++ url) yesterday today ;;
      resume_loop yesterday today rest
        (url_status_list ++ [(url, failed_count, success_count)])
  end.

(** [sum(xs)] *)
Definition py_sum (xs : list Z) : Z := fold_left Z.add xs 0.

(** The f-string of line 173. *)
Definition status_line (x : string * Z * Z) : string :=
  let '(url, failed, success) := x in
  url ++ ": " ++ PyStr.str_of_int failed ++ " / "
  ++ PyStr.str_of_int (success + failed).

(** [d.isoformat().split('.')[0]] *)
Definition iso_seconds (d : datetime) : string :=
  hd "" (PyStr.split "." (isoformat P d)).

(** The digest of lines 170-185. *)
Definition resume_message (yesterday today : datetime)
    (url_status_list : list (string * Z * Z)) : string :=
  let total_errors := py_sum (map (fun x => snd (fst x)) url_status_list) in
  let total_runs := total_errors + py_sum (map snd url_status_list) in
  let per_url_message :=
    PyStr.tab ++ PyStr.join (PyStr.nl ++ PyStr.tab)
                   (map status_line url_status_list) in
  PyStr.nl
  ++ "    Here is your summary from " ++ iso_seconds yesterday ++ " until "
  ++ iso_seconds today ++ ":" ++ PyStr.nl
  ++ PyStr.nl
  ++ "    Total Runs: " ++ PyStr.str_of_int total_runs ++ PyStr.nl
  ++ "    Total Errors:  " ++ PyStr.str_of_int total_errors ++ PyStr.nl
  ++ "    " ++ PyStr.nl
  ++ "    Per URL (url: errors / runs):" ++ PyStr.nl
  ++ "    " ++ per_url_message ++ PyStr.nl
  ++ PyStr.nl
  ++ "    Have a great day!" ++ PyStr.nl
  ++ "    ".

(** [run_resume], lines 154-187. *)
Definition run_resume (config : Config) : M P unit :=
  today <- lift_world (datetime_now P) ;;
  let yesterday := minus_hours today 24 in
  url_status_list <- resume_loop yesterday today (urls config) [] ;;
  send_notification "Monitoring Daily Resume"
    (resume_message yesterday today url_status_list)
    (from_email config) (to_email config).

End Main.

Arguments format_exc P e : clear implicits.

(* ===================================================================== *)
(** ** [main.py], further expressions *)
(* ===================================================================== *)

(** [s.strip()] *)
Definition py_strip (s : string) : string :=
  PyStr.rstrip PyStr.is_space (PyStr.lstrip PyStr.is_space s).

Definition is_newline (c : ascii) : bool := Nat.eqb (PyStr.code c) 10.

(** The list of endpoints in [get_config], line 44, from the value [raw]
    of the entry [urls]: [raw.strip().replace("\n","").split(",")]. *)
Definition config_urls (raw : string) : list string :=
  PyStr.split "," (PyStr.remove is_newline (py_strip raw)).

(** The two totals of [run_resume], lines 170-171: [(total_errors,
    total_runs)]. *)
Definition resume_totals (url_status_list : list (string * Z * Z)) : Z * Z :=
  let total_errors := py_sum (map (fun x => snd (fst x)) url_status_list) in
  let total_runs := total_errors + py_sum (map snd url_status_list) in
  (total_errors, total_runs).

(* ===================================================================== *)
(** ** Simulated platforms *)
(* ===================================================================== *)

(** Platforms to run the script on.  The world is a clock in microseconds;
    every reading of the clock or of the random source advances it by a
    quarter of a second, so that several rows can fall in one second.  The
    behaviour of the network, of the mail relay and of the database is
    given by four functions. *)
Module Sim.

Definition render (e : PyExc) : string :=
  "  File main.py" ++ PyStr.nl ++
  match e with
  | MonitoringException msg => "MonitoringException: " ++ msg
  | UnpackError got =>
      "ValueError: unpack (expected 2, got "
      ++ PyStr.str_of_int (Z.of_nat got) ++ ")"
  | IntLiteralError lit => "ValueError: invalid literal for int(): " ++ lit
  | AddressError a =>
      "ValueError: " ++ a ++ " does not appear to be an IPv4 or IPv6 address"
  | HTTPError status reason =>
      "urllib.error.HTTPError: HTTP Error " ++ PyStr.str_of_int status
      ++ ": " ++ reason
  | LibraryError cls msg => cls ++ ": " ++ msg
  end ++ PyStr.nl.

Definition platform
    (http : string -> Result unit)
    (tcp : string -> Z -> Result unit)
    (smtp : EmailMessage -> Result unit)
    (db : Event -> Result unit) : Platform :=
  {| World := Z;
     urlparse := Urllib.urlparse;
     urlopen_read := fun url w => (http url, w);
     telnet_open := fun host port _ w => (tcp host port, w);
     smtp_send_message := fun msg w => (smtp msg, w);
     sqlite_insert := fun row w => (db row, w);
     time_time := fun w => (w, w + 250000);
     uuid4 := fun w => ("id-" ++ PyStr.str_of_int w, w + 250000);
     datetime_now := fun w => (mkDatetime w, w + 250000);
     timestamp := wall_us;
     isoformat := fun d =>
       "T" ++ PyStr.str_of_int (wall_us d / 1000000) ++ "."
       ++ PyStr.str_of_int (wall_us d mod 1000000);
     tb_body := render |}.

(** A web server that answers 200 under [https://up.example], 404 under
    [https://gone.example], 503 under [https://broken.example]; other
    hosts do not resolve. *)
Definition web (url : string) : Result unit :=
  if PyStr.startswith "https://up.example" url then Ok tt
  else if PyStr.startswith "https://gone.example" url
  then Raised (HTTPError 404 "Not Found")
  else if PyStr.startswith "https://broken.example" url
  then Raised (HTTPError 503 "Service Unavailable")
  else Raised (LibraryError "urllib.error.URLError"
                 "<urlopen error [Errno -2] Name or service not known>").

(** Only port 22 of [localhost] listens. *)
Definition ports (host : string) (port : Z) : Result unit :=
  if ((host =? "localhost")%string && (port =? 22))%bool then Ok tt
  else Raised (LibraryError "ConnectionRefusedError"
                 "[Errno 111] Connection refused").

(** Every connect succeeds. *)
Definition open_ports (host : string) (port : Z) : Result unit := Ok tt.

Definition relay_up (msg : EmailMessage) : Result unit := Ok tt.

Definition relay_down (msg : EmailMessage) : Result unit :=
  Raised (LibraryError "smtplib.SMTPServerDisconnected"
            "Connection unexpectedly closed").

Definition store_up (row : Event) : Result unit := Ok tt.

Definition store_locked (row : Event) : Result unit :=
  Raised (LibraryError "sqlite3.OperationalError" "database is locked").

(** The usual platform; the same with the mail relay down, with every
    port open, and with the database locked by another process. *)
Definition healthy : Platform := platform web ports relay_up store_up.
Definition no_mail : Platform := platform web ports relay_down store_up.
Definition all_open : Platform := platform web open_ports relay_up store_up.
Definition no_store : Platform := platform web ports relay_up store_locked.

(** A fresh run: empty table, clock at one million seconds. *)
Definition fresh (P : Platform) (w : World P) : State P := mkState w [] [] [].

Definition t0 : Z := 1000000 * 1000000.

Definition config (us : list string) : Config :=
  mkConfig us "monitor@example.org" "ops@example.org".

End Sim.

(* ===================================================================== *)
(** ** Vocabulary of the statements *)
(* ===================================================================== *)

(** The number of occurrences of [c] in [s]. *)
Fixpoint count_char (c : ascii) (s : string) : nat :=
  match s with
  | EmptyString => O
  | String a r => (if Ascii.eqb a c then 1 else 0) + count_char c r
  end%nat.

(** A state with another world and further network operations. *)
Definition after_net {P : Platform} (s : State P) (w : World P)
    (ops : list NetOp) : State P :=
  mkState w (events s) (outbox s) (netlog s ++ ops).

(** The three outcomes of classification: the HTTP kind, the TCP kind, or
    the script's own exception carrying the descriptor. *)
Definition classified (url : string) (r : Result string) : Prop :=
  r = Ok "urllib" \/ r = Ok "telnet"
  \/ r = Raised (MonitoringException ("cannot determine type: " ++ url)).

(** Classification read as a total three-way split of all strings. *)
Definition classification_is_three_way (P : Platform) : Prop :=
  forall url, classified url (find_url_type P url).

(** The TCP probe read as splitting at the last colon: whenever the text
    after the last colon is an integer [n] and the connection to the text
    before it, port [n], succeeds, the probe succeeds. *)
Definition telnet_splits_at_last_colon (P : Platform) : Prop :=
  forall url host port n s w,
    PyStr.rpartition ":" url = Some (host, port) ->
    PyStr.int_of_str port = Some n ->
    telnet_open P host n 10 (world s) = (Ok tt, w) ->
    telnet P url s
    = (Ok (true, ""), after_net s w [TelnetOpen host n 10; TelnetClose]).


(** The integer timestamp [query_event_count] derives from a [datetime]
    argument: [int(d.timestamp())]. *)
Definition epoch_seconds (P : Platform) (d : datetime) : Z :=
  int_seconds (timestamp P d).

(** A row with the given description whose timestamp lies in [[lo, hi]],
    both ends included. *)
Definition matches (event : string) (lo hi : Z) (r : Event) : Prop :=
  description r = event /\ lo <= ts r <= hi.

Definition matches_dec (event : string) (lo hi : Z) (r : Event)
  : {matches event lo hi r} + {~ matches event lo hi r}.
Proof.
  unfold matches.
  destruct (string_dec (description r) event) as [D|D];
    [|right; tauto].
  destruct (Z_le_dec lo (ts r)) as [L|L]; [|right; tauto].
  destruct (Z_le_dec (ts r) hi) as [H|H]; [left; tauto | right; tauto].
Defined.

(** The number of rows that match. *)
Fixpoint count_matching (event : string) (lo hi : Z) (rows : list Event)
  : nat :=
  match rows with
  | [] => O
  | r :: rest =>
      ((if matches_dec event lo hi r then 1 else 0)
       + count_matching event lo hi rest)%nat
  end.

(** The store accepts every insert. *)
Definition store_accepts (P : Platform) : Prop :=
  forall row w, exists w', sqlite_insert P row w = (Ok tt, w').

(** The store accepts the insert of [log_event] called in the world [w]:
    the row made of the identifier and of the clock reading drawn from [w]
    is inserted and committed. *)
Definition insert_accepted (P : Platform) (event : string) (w : World P)
  : Prop :=
  let id := fst (uuid4 P w) in
  let now := fst (time_time P (snd (uuid4 P w))) in
  exists w',
    sqlite_insert P (mkEvent id (int_seconds now) event)
      (snd (time_time P (snd (uuid4 P w))))
    = (Ok tt, w').

(** [N] appends of the same description. *)
Definition log_events {P : Platform} (N : nat) (event : string) : M P unit :=
  for_each (repeat event N) (log_event P).

(** The sum of a list, from the right. *)
Definition sum_Z (xs : list Z) : Z := fold_right Z.add 0 xs.

(** The number of rows [kind ++ " " ++ url] of the table between the whole
    seconds of [yesterday] and of [today]. *)
Definition count_of (P : Platform) (rows : list Event)
    (yesterday today : datetime) (kind url : string) : Z :=
  Z.of_nat (count_matching (kind ++ " " ++ url) (epoch_seconds P yesterday)
              (epoch_seconds P today) rows).

(** The line of the digest for one endpoint, as the specification words
    it: [{endpoint}: {failed} / {failed + success}]. *)
Definition digest_line (P : Platform) (rows : list Event)
    (yesterday today : datetime) (url : string) : string :=
  let failed := count_of P rows yesterday today "failed" url in
  let success := count_of P rows yesterday today "success" url in
  url ++ ": " ++ PyStr.str_of_int failed ++ " / "
  ++ PyStr.str_of_int (failed + success).

(** The alert of a failed probe. *)
Definition alert (config : Config) (url context : string) : EmailMessage :=
  mkEmail (build_message url context)
    ("[URGENT] Service failed for url " ++ url)
    (from_email config) (to_email config).

(** Regular mode read as appending exactly one row for every probe that
    completes: [failed url] after a failed probe, [success url] after a
    successful one. *)
Definition one_event_per_completed_probe (P : Platform) : Prop :=
  forall config url s ok context s1,
    run_url P url s = (Ok (ok, context), s1) ->
    exists ev,
      events (snd (run_regular_body P config url s))
      = (events s ++ [ev])%list
      /\ description ev = (if ok then "success " else "failed ") ++ url.

(** The description of the row written for an endpoint and the outcome of
    its probe. *)
Definition row_text (o : string * bool) : string :=
  (if snd o then "success " else "failed ") ++ fst o.

Definition alert_subject (url : string) : string :=
  "[URGENT] Service failed for url " ++ url.

(** A row written after a failed probe. *)
Definition is_failed_row (r : Event) : bool :=
  String.prefix "failed " (description r).

(** A row of the table that belongs to one of the endpoints [us] and lies
    in the window. *)
Definition probe_row_in (us : list string) (lo hi : Z) (r : Event) : bool :=
  existsb (fun u => (description r =? "failed " ++ u)%string
                    || (description r =? "success " ++ u)%string) us
  && (lo <=? ts r) && (ts r <=? hi).

(** A host name that [urlsplit] takes for a scheme: an ASCII letter, then
    letters, digits, [+], [-] and [.]. *)
Definition scheme_like (host : string) : bool :=
  match host with
  | EmptyString => false
  | String c _ =>
      PyStr.is_ascii_alpha c && PyStr.forallb_str Urllib.is_scheme_char host
  end.

(** A non-empty string of the digits [0] to [9]. *)
Definition decimal (port : string) : bool :=
  match port with
  | EmptyString => false
  | String _ _ => PyStr.forallb_str PyStr.is_decimal port
  end.

(** The value of a string of decimal digits. *)
Definition decimal_value (port : string) : Z :=
  fold_left (fun acc c => 10 * acc + Z.of_nat (PyStr.code c - 48))
    (list_ascii_of_string port) 0.

(** No character of [s] satisfies [p]. *)
Definition free_of (p : ascii -> bool) (s : string) : Prop :=
  PyStr.existsb_str p s = false.

(** The window test of the [where] clause. *)
Definition in_window (lo hi : Z) (r : Event) : bool :=
  (lo <=? ts r) && (ts r <=? hi).

(** How often the loop of [run_resume] counts the row [r] for the
    endpoint [u]: once for each of the two descriptions it matches. *)
Definition row_hits (lo hi : Z) (r : Event) (u : string) : Z :=
  (if where_clause ("failed " ++ u) lo hi r then 1 else 0)
  + (if where_clause ("success " ++ u) lo hi r then 1 else 0).

(** How often the row is counted over the whole list of endpoints. *)
Definition multiplicity (lo hi : Z) (us : list string) (r : Event) : Z :=
  sum_Z (map (row_hits lo hi r) us).

(** Every white space character of [s] is a newline. *)
Definition spaces_are_newlines (s : string) : Prop :=
  PyStr.forallb_str (fun c => implb (PyStr.is_space c) (is_newline c)) s
  = true.

(** A host that starts with a digit, such as an IPv4 address: a decimal
    digit, then letters, digits, [+], [-] and [.]. *)
Definition digit_first (host : string) : bool :=
  match host with
  | EmptyString => false
  | String c _ =>
      PyStr.is_decimal c && PyStr.forallb_str Urllib.is_scheme_char host
  end.

(* ===================================================================== *)
(** ** Strings *)
(* ===================================================================== *)

Lemma split_nonempty (c : ascii) (s : string) : PyStr.split c s <> [].
Proof.
  destruct s as [|a r]; simpl; [discriminate|].
  destruct (PyStr.split c r); [discriminate|].
  destruct (Ascii.eqb a c); discriminate.
Qed.

(** [split] returns one piece more than there are separators. *)
Lemma split_length (c : ascii) (s : string) :
  List.length (PyStr.split c s) = S (count_char c s).
Proof.
  induction s as [|a r IH]; simpl; [reflexivity|].
  destruct (PyStr.split c r) as [|p ps] eqn:E.
  - now destruct (split_nonempty c r).
  - simpl in IH. destruct (Ascii.eqb a c); simpl; lia.
Qed.

Lemma split_no_sep (c : ascii) (s : string) :
  count_char c s = O -> PyStr.split c s = [s] /\ PyStr.rpartition c s = None.
Proof.
  induction s as [|a r IH]; simpl; intros H; [now split|].
  destruct (Ascii.eqb a c) eqn:E; [discriminate|].
  destruct (IH H) as [-> ->]. now split.
Qed.

(** With exactly one separator, [split] cuts where [rpartition] does. *)
Lemma split_one_sep (c : ascii) (s host port : string) :
  count_char c s = 1%nat ->
  PyStr.rpartition c s = Some (host, port) ->
  PyStr.split c s = [host; port].
Proof.
  revert host.
  induction s as [|a r IH]; simpl; intros host H R; [discriminate|].
  destruct (Ascii.eqb a c) eqn:E.
  - assert (H0 : count_char c r = O) by (simpl in H; lia).
    destruct (split_no_sep c r H0) as [S0 R0].
    rewrite R0 in R. rewrite S0. now inversion R.
  - simpl in H.
    destruct (PyStr.rpartition c r) as [[x y]|] eqn:R'; [|discriminate].
    inversion R; subst. now rewrite (IH x H eq_refl).
Qed.

Lemma format_exc_nonempty (P : Platform) (e : PyExc) : format_exc P e <> "".
Proof. unfold format_exc. discriminate. Qed.

(** What [isdigit] computes: a non-empty string of digit characters. *)
Lemma isdigit_spec (s : string) :
  PyStr.isdigit s = true
  <-> s <> "" /\ Forall (fun c => PyStr.is_digit_char c = true)
                   (list_ascii_of_string s).
Proof.
  destruct s as [|a r]; simpl.
  - split; [discriminate | intros [H _]; now destruct H].
  - rewrite andb_true_iff. split.
    + intros [Ha Hr]. split; [discriminate|]. constructor; [exact Ha|].
      induction r as [|b r IH]; simpl in *; constructor.
      * now apply andb_true_iff in Hr.
      * apply IH. now apply andb_true_iff in Hr.
    + intros [_ F]. inversion F as [|? ? Ha Fr]; subst. split; [exact Ha|].
      clear F Ha. induction r as [|b r IH]; simpl in *; [reflexivity|].
      inversion Fr; subst. apply andb_true_iff. split; auto.
Qed.

(** What [int()] reads: white space around the literal but not the
    separators U+001C to U+001F, one sign, single underscores between
    digits, and at most 4300 digits. *)
Example int_of_str_cases :
  PyStr.int_of_str (" 22" ++ PyStr.nl) = Some 22
  /\ PyStr.int_of_str ("22" ++ PyStr.chr 31) = None
  /\ py_strip ("22" ++ PyStr.chr 31) = "22"
  /\ PyStr.int_of_str "-2_2" = Some (-22)
  /\ PyStr.int_of_str "2__2" = None
  /\ PyStr.int_of_str "+ 22" = None
  /\ PyStr.int_of_str (string_of_list_ascii (repeat "1"%char 4300)) <> None
  /\ PyStr.int_of_str (string_of_list_ascii (repeat "0"%char 4301)) = None.
Proof.
  repeat split; try (vm_compute; reflexivity).
  vm_compute. discriminate.
Qed.

(* ===================================================================== *)
(** ** Classification *)
(* ===================================================================== *)

(** C2, as stated, fails: classification is not a three-way split of all
    strings.  [urlparse] rejects the descriptor [http://[::1] (a bracket
    that is never closed) with a [ValueError], and [find_url_type] lets it
    through: the result is neither a probe kind nor the script's own
    exception. *)
Lemma find_url_type_unclosed_bracket :
  find_url_type Sim.healthy "http://[::1"
  = Raised (LibraryError "ValueError" "Invalid IPv6 URL")
  /\ ~ classification_is_three_way Sim.healthy.
Proof.
  split; [reflexivity|].
  intros H. specialize (H "http://[::1").
  destruct H as [H|[H|H]]; vm_compute in H; discriminate.
Qed.

(** C2, amended: for every descriptor that [urlparse] accepts,
    classification returns the HTTP kind when the parsed scheme is [http]
    or [https]; otherwise the TCP kind when the parsed path is a non-empty
    string of digits; otherwise it fails with the script's exception, whose
    message carries the descriptor.  A descriptor that [urlparse] rejects
    fails with the parser's exception. *)
Theorem find_url_type_spec (P : Platform) (url : string) :
  (forall parsed, urlparse P url = Ok parsed ->
     ((scheme parsed = "http" \/ scheme parsed = "https") ->
      find_url_type P url = Ok "urllib")
     /\ (scheme parsed <> "http" -> scheme parsed <> "https" ->
         PyStr.isdigit (path parsed) = true ->
         find_url_type P url = Ok "telnet")
     /\ (scheme parsed <> "http" -> scheme parsed <> "https" ->
         PyStr.isdigit (path parsed) = false ->
         find_url_type P url
         = Raised (MonitoringException ("cannot determine type: " ++ url))))
  /\ (forall e, urlparse P url = Raised e -> find_url_type P url = Raised e).
Proof.
  unfold find_url_type. split.
  - intros parsed ->. repeat split.
    + intros [H|H]; rewrite H; reflexivity.
    + intros H1 H2 D.
      apply String.eqb_neq in H1, H2. now rewrite H1, H2, D.
    + intros H1 H2 D.
      apply String.eqb_neq in H1, H2. now rewrite H1, H2, D.
  - now intros e ->.
Qed.

(** The four cases of [find_url_type_spec] on concrete descriptors. *)
Lemma find_url_type_spec_witness :
  find_url_type Sim.healthy "https://up.example/health" = Ok "urllib"
  /\ find_url_type Sim.healthy "localhost:8080" = Ok "telnet"
  /\ find_url_type Sim.healthy "ftp://x.com"
     = Raised (MonitoringException "cannot determine type: ftp://x.com")
  /\ find_url_type Sim.healthy "//[" 
     = Raised (LibraryError "ValueError" "Invalid IPv6 URL").
Proof.
  split; [|split; [|split]].
  - apply (proj1 (find_url_type_spec Sim.healthy "https://up.example/health")
             (mkParseResult "https" "up.example" "/health" "" "" ""));
      [reflexivity | now right].
  - apply (proj1 (find_url_type_spec Sim.healthy "localhost:8080")
             (mkParseResult "localhost" "" "8080" "" "" ""));
      [reflexivity | discriminate | discriminate | reflexivity].
  - apply (proj1 (find_url_type_spec Sim.healthy "ftp://x.com")
             (mkParseResult "ftp" "x.com" "" "" "" ""));
      [reflexivity | discriminate | discriminate | reflexivity].
  - apply (proj2 (find_url_type_spec Sim.healthy "//[")). reflexivity.
Defined.

(** The order of the tests matters and an empty path is no port: a host
    called [http] is taken for a URL, and [localhost:] is not recognised. *)
Lemma find_url_type_edge_cases :
  find_url_type Sim.healthy "http:80" = Ok "urllib"
  /\ find_url_type Sim.healthy "localhost:"
     = Raised (MonitoringException "cannot determine type: localhost:").
Proof. repeat split. Qed.

(** A host in brackets has to be an IPv6 or an IPvFuture literal. *)
Example find_url_type_bracketed_hosts :
  find_url_type Sim.healthy "http://[::1]:8080/" = Ok "urllib"
  /\ find_url_type Sim.healthy "http://[v1.x]/" = Ok "urllib"
  /\ find_url_type Sim.healthy "http://[x]/" = Raised (AddressError "x")
  /\ find_url_type Sim.healthy "http://[127.0.0.1]/"
     = Raised (LibraryError "ValueError"
                 "An IPv4 address cannot be in brackets").
Proof. repeat split. Qed.

(* ===================================================================== *)
(** ** The probes *)
(* ===================================================================== *)

Ltac unfold_script :=
  unfold bind, ret, raise, try_except, lift_result, lift_world,
    lift_world_result, log_net, after_net in *; simpl in *.

(** The [try] suite of [request]: one GET, whose result decides. *)
Lemma request_try_run (P : Platform) (url : string) (s : State P) :
  request_try P url s
  = match urlopen_read P url (world s) with
    | (Ok _, w) => (Ok (true, ""), after_net s w [HttpGet url])
    | (Raised e, w) => (Raised e, after_net s w [HttpGet url])
    end.
Proof.
  unfold request_try. unfold_script.
  destruct (urlopen_read P url (world s)) as [[[]|e] w]; reflexivity.
Qed.

(** The [try] suite of [telnet] on a string that splits in two pieces with
    an integer second piece. *)
Lemma telnet_try_connect (P : Platform) (url host port : string) (n : Z)
    (s : State P) :
  PyStr.split ":" url = [host; port] ->
  PyStr.int_of_str port = Some n ->
  telnet_try P url s
  = match telnet_open P host n 10 (world s) with
    | (Ok _, w) =>
        (Ok (true, ""), after_net s w [TelnetOpen host n 10; TelnetClose])
    | (Raised e, w) => (Raised e, after_net s w [TelnetOpen host n 10])
    end.
Proof.
  intros Hs Hn. unfold telnet_try, unpack2, py_int. rewrite Hs. unfold_script.
  rewrite Hn. simpl.
  destruct (telnet_open P host n 10 (world s)) as [[[]|e] w]; simpl;
    [rewrite <- app_assoc|]; reflexivity.
Qed.

Lemma telnet_try_bad_port (P : Platform) (url host port : string)
    (s : State P) :
  PyStr.split ":" url = [host; port] ->
  PyStr.int_of_str port = None ->
  telnet_try P url s = (Raised (IntLiteralError port), s).
Proof.
  intros Hs Hn. unfold telnet_try, unpack2, py_int. rewrite Hs. unfold_script.
  now rewrite Hn.
Qed.

Lemma telnet_try_bad_split (P : Platform) (url : string) (s : State P) :
  count_char ":" url <> 1%nat ->
  telnet_try P url s = (Raised (UnpackError (S (count_char ":" url))), s).
Proof.
  intros H. unfold telnet_try, unpack2.
  pose proof (split_length ":" url) as L.
  destruct (PyStr.split ":" url) as [|a [|b [|c r]]]; simpl in L;
    try (exfalso; lia); unfold_script; now rewrite <- L.
Qed.

(** C3: the HTTP probe issues one GET.  When the request completes without
    an exception, or with an [HTTPError] of status below 500, the probe
    succeeds with empty detail; an [HTTPError] of status 500 or more fails
    it with the reason phrase as detail; any other exception (refused
    connection, DNS, TLS, timeout) fails it with the formatted traceback of
    that exception as detail. *)
Theorem request_outcome (P : Platform) (url : string) (s : State P)
    (r : Result unit) (w : World P) :
  urlopen_read P url (world s) = (r, w) ->
  let s' := after_net s w [HttpGet url] in
  (r = Ok tt -> request P url s = (Ok (true, ""), s'))
  /\ (forall status reason,
        r = Raised (HTTPError status reason) -> status < 500 ->
        request P url s = (Ok (true, ""), s'))
  /\ (forall status reason,
        r = Raised (HTTPError status reason) -> 500 <= status ->
        request P url s = (Ok (false, reason), s'))
  /\ (forall e,
        r = Raised e -> is_HTTPError e = false ->
        request P url s = (Ok (false, format_exc P e), s')
        /\ format_exc P e <> "").
Proof.
  intros H s'. unfold request, try_except. rewrite request_try_run, H.
  repeat split.
  - now intros ->.
  - intros status reason -> L. unfold ret.
    destruct (Z.geb_spec status 500); [lia | reflexivity].
  - intros status reason -> L. unfold ret.
    destruct (Z.geb_spec status 500); [reflexivity | lia].
  - subst r. destruct e; simpl in *; try discriminate; reflexivity.
  - apply format_exc_nonempty.
Qed.

(** [request_outcome] on a server that answers 503. *)
Lemma request_outcome_witness :
  request Sim.healthy "https://broken.example/" (Sim.fresh Sim.healthy Sim.t0)
  = (Ok (false, "Service Unavailable"),
     @mkState Sim.healthy Sim.t0 [] [] [HttpGet "https://broken.example/"]).
Proof.
  apply (proj1 (proj2 (proj2
           (request_outcome Sim.healthy "https://broken.example/"
              (Sim.fresh Sim.healthy Sim.t0)
              (Raised (HTTPError 503 "Service Unavailable")) Sim.t0
              eq_refl))) 503 "Service Unavailable" eq_refl).
  lia.
Defined.

(** C4, as stated, fails: the probe does not split at the last colon.  In
    [a:b:80] the text after the last colon is the integer 80 and, where
    every port is open, the connection to [a:b], port 80, would succeed;
    the probe reports a failure and attempts no connection, because
    [split] returns three pieces and the unpacking raises. *)
Lemma telnet_two_colons :
  telnet Sim.all_open "a:b:80" (Sim.fresh Sim.all_open Sim.t0)
  = (Ok (false, format_exc Sim.all_open (UnpackError 3)),
     Sim.fresh Sim.all_open Sim.t0)
  /\ ~ telnet_splits_at_last_colon Sim.all_open.
Proof.
  split; [reflexivity|].
  intros H.
  specialize (H "a:b:80" "a:b" "80" 80 (Sim.fresh Sim.all_open Sim.t0) Sim.t0
                eq_refl eq_refl eq_refl).
  discriminate H.
Qed.

(** C4, amended: on a string with exactly one colon the TCP probe splits
    at that colon (which is also the last one) and reads the second piece
    as an integer; it then asks for one connection to that host and port
    with a timeout of 10, and when the connection is made it closes it at
    once and succeeds with empty detail, while an exception of the
    connection attempt fails the probe with the formatted traceback as
    detail.  A second piece that is no integer, and a string with no colon
    or with more than one, fail the probe with the formatted traceback of
    the [ValueError], and no connection is attempted. *)
Theorem telnet_outcome (P : Platform) (url : string) (s : State P) :
  (count_char ":" url = 1%nat ->
   forall host port,
     PyStr.rpartition ":" url = Some (host, port) ->
     (forall n r w,
        PyStr.int_of_str port = Some n ->
        telnet_open P host n 10 (world s) = (r, w) ->
        (r = Ok tt ->
         telnet P url s
         = (Ok (true, ""),
            after_net s w [TelnetOpen host n 10; TelnetClose]))
        /\ (forall e, r = Raised e ->
            telnet P url s
            = (Ok (false, format_exc P e),
               after_net s w [TelnetOpen host n 10])))
     /\ (PyStr.int_of_str port = None ->
         telnet P url s
         = (Ok (false, format_exc P (IntLiteralError port)), s)))
  /\ (count_char ":" url <> 1%nat ->
      telnet P url s
      = (Ok (false, format_exc P (UnpackError (S (count_char ":" url)))), s)).
Proof.
  split.
  - intros H1 host port R.
    pose proof (split_one_sep ":" url host port H1 R) as Hs. split.
    + intros n r w Hn Ho. unfold telnet, try_except.
      rewrite (telnet_try_connect P url host port n s Hs Hn), Ho.
      split; [now intros -> | now intros e ->].
    + intros Hn. unfold telnet, try_except.
      now rewrite (telnet_try_bad_port P url host port s Hs Hn).
  - intros H. unfold telnet, try_except.
    now rewrite (telnet_try_bad_split P url s H).
Qed.

(** [telnet_outcome] on the one listening port, and on a string with two
    colons. *)
Lemma telnet_outcome_witness :
  telnet Sim.healthy "localhost:22" (Sim.fresh Sim.healthy Sim.t0)
  = (Ok (true, ""),
     @mkState Sim.healthy Sim.t0 [] []
       [TelnetOpen "localhost" 22 10; TelnetClose])
  /\ telnet Sim.healthy "a:b:80" (Sim.fresh Sim.healthy Sim.t0)
     = (Ok (false, format_exc Sim.healthy (UnpackError 3)),
        Sim.fresh Sim.healthy Sim.t0).
Proof.
  split.
  - apply (proj1 (proj1 (telnet_outcome Sim.healthy "localhost:22"
                           (Sim.fresh Sim.healthy Sim.t0))
                    eq_refl "localhost" "22" eq_refl)
             22 (Ok tt) Sim.t0 eq_refl eq_refl).
    reflexivity.
  - apply (proj2 (telnet_outcome Sim.healthy "a:b:80"
                    (Sim.fresh Sim.healthy Sim.t0))).
    simpl. lia.
Defined.




(* ===================================================================== *)
(** ** The event store *)
(* ===================================================================== *)

(** The [where] clause decides [matches]. *)
Lemma where_clause_matches (event : string) (lo hi : Z) (r : Event) :
  where_clause event lo hi r = true <-> matches event lo hi r.
Proof.
  unfold where_clause, matches.
  rewrite !andb_true_iff, String.eqb_eq, Z.geb_le, Z.leb_le. tauto.
Qed.

(** The scan adds the number of matching rows to its counter. *)
Lemma select_count_matching (event : string) (lo hi : Z)
    (rows : list Event) :
  forall c,
    select_count (where_clause event lo hi) rows c
    = c + Z.of_nat (count_matching event lo hi rows).
Proof.
  induction rows as [|r rest IH]; intros c; simpl; [lia|].
  rewrite IH.
  destruct (matches_dec event lo hi r) as [Hm|Hm].
  - apply where_clause_matches in Hm. rewrite Hm. lia.
  - destruct (where_clause event lo hi r) eqn:E; [|lia].
    apply where_clause_matches in E. contradiction.
Qed.

Lemma count_matching_app (event : string) (lo hi : Z) (a b : list Event) :
  count_matching event lo hi (a ++ b)
  = (count_matching event lo hi a + count_matching event lo hi b)%nat.
Proof. induction a as [|r a IH]; simpl; [reflexivity | rewrite IH; lia]. Qed.

Lemma count_matching_all (event : string) (lo hi : Z) (rows : list Event) :
  (forall r, In r rows -> matches event lo hi r) ->
  count_matching event lo hi rows = List.length rows.
Proof.
  induction rows as [|r rest IH]; intros H; simpl; [reflexivity|].
  rewrite IH by (intros; apply H; now right).
  destruct (matches_dec event lo hi r) as [|N]; [reflexivity|].
  destruct N. apply H. now left.
Qed.

Lemma count_matching_none (event : string) (lo hi : Z) (rows : list Event) :
  (forall r, In r rows -> ~ matches event lo hi r) ->
  count_matching event lo hi rows = O.
Proof.
  induction rows as [|r rest IH]; intros H; simpl; [reflexivity|].
  rewrite IH by (intros; apply H; now right).
  destruct (matches_dec event lo hi r) as [Y|]; [|reflexivity].
  destruct (H r (or_introl eq_refl) Y).
Qed.

Lemma count_matching_In (event : string) (lo hi : Z) (rows : list Event)
    (r : Event) :
  In r rows -> matches event lo hi r ->
  (1 <= count_matching event lo hi rows)%nat.
Proof.
  induction rows as [|x rest IH]; intros Hin Hm; simpl; [destruct Hin|].
  destruct Hin as [->|Hin].
  - destruct (matches_dec event lo hi r); [lia | contradiction].
  - specialize (IH Hin Hm). lia.
Qed.

Lemma query_event_count_run (P : Platform) (event : string)
    (start end_ : datetime) (s : State P) :
  query_event_count P event start end_ s
  = (Ok (Z.of_nat (count_matching event (epoch_seconds P start)
                     (epoch_seconds P end_) (events s))), s).
Proof.
  unfold query_event_count, epoch_seconds.
  now rewrite select_count_matching.
Qed.

(** C5: [query_event_count] returns, without changing the state, the
    number of rows whose description is the argument and whose timestamp
    [t] satisfies [start <= t <= end], where [start] and [end] are the
    integer timestamps of the two bounds; both ends are included, so a row
    whose timestamp equals both bounds is counted. *)
Theorem query_event_count_spec (P : Platform) (event : string)
    (start end_ : datetime) (s : State P) :
  (exists n : nat,
     query_event_count P event start end_ s = (Ok (Z.of_nat n), s)
     /\ n = count_matching event (epoch_seconds P start)
              (epoch_seconds P end_) (events s)
     /\ (forall pick : Event -> bool,
           (forall r, pick r = true
                      <-> description r = event
                          /\ epoch_seconds P start <= ts r
                             <= epoch_seconds P end_) ->
           n = List.length (filter pick (events s)))
     /\ (forall r, In r (events s) -> description r = event ->
                   ts r = epoch_seconds P start ->
                   ts r = epoch_seconds P end_ ->
                   (1 <= n)%nat)).
Proof.
  eexists. split; [apply query_event_count_run|]. split; [reflexivity|]. split.
  - intros pick Hp. induction (events s) as [|r rest IH]; simpl; [reflexivity|].
    rewrite IH.
    destruct (matches_dec event _ _ r) as [Y|N], (pick r) eqn:E;
      simpl; try reflexivity.
    + apply Hp in Y. congruence.
    + apply Hp in E. contradiction.
  - intros r Hin D L H. apply (count_matching_In _ _ _ _ r Hin).
    split; [exact D | lia].
Qed.

(** [query_event_count_spec] on a table of three rows, with both bounds at
    the timestamp of the second row. *)
Lemma query_event_count_spec_witness :
  let rows := [mkEvent "a" 99 "failed x"; mkEvent "b" 100 "failed x";
               mkEvent "c" 100 "success x"] in
  let s := @mkState Sim.healthy Sim.t0 rows [] [] in
  let at100 := mkDatetime (100 * 1000000) in
  query_event_count Sim.healthy "failed x" at100 at100 s = (Ok 1, s).
Proof.
  intros rows s at100.
  destruct (query_event_count_spec Sim.healthy "failed x" at100 at100 s)
    as [n [E [C _]]].
  rewrite E, C. reflexivity.
Defined.

(** One append: a fresh identifier, the clock read once, and one row added
    at the end of the table when the store accepts it; when the store
    raises, the table is left as it was. *)
Lemma log_event_run (P : Platform) (event : string) (s : State P) :
  log_event P event s
  = let (id, w1) := uuid4 P (world s) in
    let (now, w2) := time_time P w1 in
    let row := mkEvent id (int_seconds now) event in
    match sqlite_insert P row w2 with
    | (Ok _, w3) =>
        (Ok tt, mkState w3 (events s ++ [row]) (outbox s) (netlog s))
    | (Raised e, w3) =>
        (Raised e, mkState w3 (events s) (outbox s) (netlog s))
    end.
Proof.
  unfold log_event. unfold_script.
  destruct (uuid4 P (world s)) as [id w1]. simpl.
  destruct (time_time P w1) as [now w2]. simpl.
  destruct (sqlite_insert P _ w2) as [[[]|e] w3]; reflexivity.
Qed.

(** The two ways an append ends. *)
Lemma log_event_outcome (P : Platform) (event : string) (s : State P) :
  (exists ev s',
     log_event P event s = (Ok tt, s')
     /\ events s' = (events s ++ [ev])%list
     /\ description ev = event
     /\ outbox s' = outbox s /\ netlog s' = netlog s)
  \/ (exists e s',
        log_event P event s = (Raised e, s')
        /\ events s' = events s
        /\ outbox s' = outbox s /\ netlog s' = netlog s).
Proof.
  rewrite log_event_run.
  destruct (uuid4 P (world s)) as [id w1].
  destruct (time_time P w1) as [now w2]. cbv zeta.
  destruct (sqlite_insert P _ w2) as [[[]|e] w3].
  - left. eexists. eexists. repeat split.
  - right. eexists. eexists. repeat split.
Qed.

(** An append that the store accepts returns. *)
Lemma log_event_appends (P : Platform) (event : string) (s : State P) :
  insert_accepted P event (world s) ->
  exists ev s',
    log_event P event s = (Ok tt, s')
    /\ events s' = (events s ++ [ev])%list
    /\ description ev = event
    /\ outbox s' = outbox s /\ netlog s' = netlog s.
Proof.
  unfold insert_accepted. intros [w' H]. rewrite log_event_run.
  destruct (uuid4 P (world s)) as [id w1]. cbn [fst snd] in H.
  destruct (time_time P w1) as [now w2]. cbn [fst snd] in H.
  cbv zeta. rewrite H. eexists. eexists. repeat split.
Qed.

Lemma store_accepts_insert (P : Platform) (event : string) (w : World P) :
  store_accepts P -> insert_accepted P event w.
Proof. intros H. unfold insert_accepted. apply H. Qed.

(** On a store that accepts every insert, [N] appends return. *)
Lemma log_events_return (P : Platform) (N : nat) (event : string) :
  store_accepts P ->
  forall s : State P, exists s', log_events N event s = (Ok tt, s').
Proof.
  intros Hst. unfold log_events. induction N as [|N IH]; intros s; simpl.
  - now exists s.
  - destruct (log_event_appends P event s (store_accepts_insert P _ _ Hst))
      as [ev [s1 [E _]]].
    destruct (IH s1) as [s' E']. exists s'. unfold bind. now rewrite E.
Qed.

(** [N] appends that return have added [N] rows of that description at
    the end of the table. *)
Lemma log_events_run (P : Platform) (N : nat) (event : string) :
  forall s s' : State P,
    log_events N event s = (Ok tt, s') ->
    exists new,
      events s' = (events s ++ new)%list
      /\ List.length new = N
      /\ (forall r, In r new -> description r = event).
Proof.
  unfold log_events. induction N as [|N IH]; intros s s'; simpl.
  - unfold ret. intros H. inversion H; subst s'. exists [].
    rewrite app_nil_r. repeat split. intros r [].
  - unfold bind.
    destruct (log_event_outcome P event s)
      as [[ev [s1 [E [Ev [D _]]]]] | [e [s1 [E _]]]]; rewrite E;
      [|discriminate].
    intros H. destruct (IH s1 s' H) as [new [Ev' [L F]]].
    exists (ev :: new). rewrite Ev', Ev, <- app_assoc.
    repeat split; simpl; [lia|].
    intros r [<-|Hin]; auto.
Qed.

(** Appending and counting on any table: a window that covers the new
    timestamps counts [N] more rows than before, a window that misses all
    of them counts as many as before. *)
Lemma log_events_count (P : Platform) (N : nat) (event : string)
    (s s' : State P) :
  log_events N event s = (Ok tt, s') ->
  exists new,
    events s' = (events s ++ new)%list
    /\ List.length new = N
    /\ (forall r, In r new -> description r = event)
    /\ forall lo hi,
         ((forall r, In r new -> lo <= ts r <= hi) ->
          count_matching event lo hi (events s')
          = (count_matching event lo hi (events s) + N)%nat)
         /\ ((forall r, In r new -> ~ lo <= ts r <= hi) ->
             count_matching event lo hi (events s')
             = count_matching event lo hi (events s)).
Proof.
  intros E. destruct (log_events_run P N event s s' E) as [new [Ev [L F]]].
  exists new. repeat split; auto; intros H; rewrite Ev, count_matching_app.
  - rewrite (count_matching_all event lo hi new), L; [reflexivity|].
    intros r Hin. split; auto.
  - rewrite (count_matching_none event lo hi new); [lia|].
    intros r Hin [_ W]. exact (H r Hin W).
Qed.

(** C6: on a table that holds no event of the description, [N] appends of
    that description return when the store accepts every insert; and
    whenever they have returned they have added [N] rows, and counting the
    description then returns [N] for every window that covers the
    timestamps of all [N] rows, and 0 for every window that ends before the
    earliest or starts after the latest of them. *)
Theorem append_then_count (P : Platform) (N : nat) (event : string)
    (s : State P) :
  (forall r, In r (events s) -> description r <> event) ->
  (store_accepts P -> exists s', log_events N event s = (Ok tt, s'))
  /\ forall s',
       log_events N event s = (Ok tt, s') ->
       exists new,
         events s' = (events s ++ new)%list
         /\ List.length new = N
         /\ (forall r, In r new -> description r = event)
         /\ forall start end_,
              ((forall r, In r new ->
                          epoch_seconds P start <= ts r
                          <= epoch_seconds P end_) ->
               query_event_count P event start end_ s'
               = (Ok (Z.of_nat N), s'))
              /\ ((forall r, In r new -> epoch_seconds P end_ < ts r) ->
                  query_event_count P event start end_ s' = (Ok 0, s'))
              /\ ((forall r, In r new -> ts r < epoch_seconds P start) ->
                  query_event_count P event start end_ s' = (Ok 0, s')).
Proof.
  intros Hs. split.
  - intros Hst. apply log_events_return, Hst.
  - intros s' E.
    destruct (log_events_count P N event s s' E) as [new [Ev [L [D C]]]].
    exists new. repeat split; auto; intros H; rewrite query_event_count_run;
      destruct (C (epoch_seconds P start) (epoch_seconds P end_))
        as [Cin Cout];
      assert (Z0 : count_matching event (epoch_seconds P start)
                     (epoch_seconds P end_) (events s) = O)
        by (apply count_matching_none; intros r Hin [Hd _];
            exact (Hs r Hin Hd)).
    + now rewrite (Cin H), Z0.
    + rewrite Cout, Z0; [reflexivity|].
      intros r Hin W. specialize (H r Hin). lia.
    + rewrite Cout, Z0; [reflexivity|].
      intros r Hin W. specialize (H r Hin). lia.
Qed.

(** [append_then_count] with three appends on a fresh table: the three
    rows fall in the seconds 1000000, 1000000 and 1000001, and a window of
    two seconds from the start counts all three. *)
Lemma append_then_count_witness :
  let s := Sim.fresh Sim.healthy Sim.t0 in
  let s' := snd (log_events 3 "failed x" s) in
  fst (log_events 3 "failed x" s) = Ok tt
  /\ map ts (events s') = [1000000; 1000000; 1000001]
  /\ query_event_count Sim.healthy "failed x" (mkDatetime Sim.t0)
       (mkDatetime (Sim.t0 + 2000000)) s'
     = (Ok 3, s').
Proof.
  intros s s0. split; [reflexivity|]. split; [reflexivity|].
  destruct (append_then_count Sim.healthy 3 "failed x" s) as [_ H].
  - intros r [].
  - destruct (H s0 eq_refl) as [new [Ev [L [D W]]]].
    simpl in Ev.
    apply (proj1 (W (mkDatetime Sim.t0) (mkDatetime (Sim.t0 + 2000000)))).
    intros r Hin. rewrite <- Ev in Hin.
    assert (Hts : In (ts r) [1000000; 1000000; 1000001])
      by (exact (in_map ts _ _ Hin)).
    assert (Elo : epoch_seconds Sim.healthy (mkDatetime Sim.t0) = 1000000)
      by reflexivity.
    assert (Ehi : epoch_seconds Sim.healthy (mkDatetime (Sim.t0 + 2000000))
                  = 1000002) by reflexivity.
    rewrite Elo, Ehi. simpl in Hts. lia.
Defined.

(* ===================================================================== *)
(** ** Regular mode *)
(* ===================================================================== *)

(** The probes touch neither the table nor the outbox. *)
Lemma telnet_frame (P : Platform) (url : string) (s : State P) :
  events (snd (telnet P url s)) = events s
  /\ outbox (snd (telnet P url s)) = outbox s.
Proof.
  unfold telnet, telnet_try, unpack2, py_int. unfold_script.
  destruct (PyStr.split ":" url) as [|a [|b [|c l]]]; simpl; auto.
  destruct (PyStr.int_of_str b); simpl; auto.
  destruct (telnet_open P a z 10 (world s)) as [[[]|e] w]; simpl; auto.
Qed.

Lemma request_frame (P : Platform) (url : string) (s : State P) :
  events (snd (request P url s)) = events s
  /\ outbox (snd (request P url s)) = outbox s.
Proof.
  unfold request, try_except. rewrite request_try_run.
  destruct (urlopen_read P url (world s)) as [[[]|e] w]; simpl; auto.
  destruct e; simpl; auto. unfold ret. destruct (status >=? 500); simpl; auto.
Qed.

Lemma run_url_frame (P : Platform) (url : string) (s : State P) :
  events (snd (run_url P url s)) = events s
  /\ outbox (snd (run_url P url s)) = outbox s.
Proof.
  unfold run_url, bind, lift_result.
  destruct (find_url_type P url) as [t|e]; simpl; auto.
  destruct (t =? "urllib")%string; [apply request_frame|].
  destruct (t =? "telnet")%string; [apply telnet_frame|].
  simpl; auto.
Qed.

(** A descriptor that cannot be classified is not probed: [run_url]
    raises in the state it was called in. *)
Lemma run_url_unclassified (P : Platform) (url : string) (e : PyExc)
    (s : State P) :
  find_url_type P url = Raised e -> run_url P url s = (Raised e, s).
Proof. intros H. unfold run_url, bind, lift_result. now rewrite H. Qed.

Lemma send_notification_run (P : Platform)
    (subject message from_email to_email : string) (s : State P) :
  send_notification P subject message from_email to_email s
  = let msg := mkEmail message subject from_email to_email in
    match smtp_send_message P msg (world s) with
    | (Ok _, w) =>
        (Ok tt, mkState w (events s) (outbox s ++ [msg]) (netlog s))
    | (Raised e, w) =>
        (Raised e, mkState w (events s) (outbox s) (netlog s))
    end.
Proof.
  unfold send_notification. unfold_script.
  destruct (smtp_send_message P _ (world s)) as [[[]|e] w]; reflexivity.
Qed.

(** The loop over a list cut in two. *)
Lemma for_each_app {P : Platform} {A} (body : A -> M P unit)
    (xs ys : list A) :
  forall s,
    for_each (xs ++ ys) body s
    = match for_each xs body s with
      | (Ok _, s1) => for_each ys body s1
      | (Raised e, s1) => (Raised e, s1)
      end.
Proof.
  induction xs as [|x xs IH]; intros s; simpl; [reflexivity|].
  unfold bind. destruct (body x s) as [[[]|e] s1]; [apply IH | reflexivity].
Qed.

(** One turn of the loop, step by step. *)
Lemma run_regular_body_run (P : Platform) (config : Config) (url : string)
    (s : State P) :
  run_regular_body P config url s
  = match run_url P url s with
    | (Ok (true, _), s1) => log_event P ("success " ++ url) s1
    | (Ok (false, context), s1) =>
        match smtp_send_message P (alert config url context) (world s1) with
        | (Ok _, w) =>
            log_event P ("failed " ++ url)
              (mkState w (events s1)
                 (outbox s1 ++ [alert config url context]) (netlog s1))
        | (Raised e, w) =>
            (Raised e, mkState w (events s1) (outbox s1) (netlog s1))
        end
    | (Raised e, s1) => (Raised e, s1)
    end.
Proof.
  unfold run_regular_body, bind.
  destruct (run_url P url s) as [[[[|] context]|e] s1]; cbn [fst snd negb];
    try reflexivity.
  rewrite send_notification_run. cbv zeta. fold (alert config url context).
  destruct (smtp_send_message P _ (world s1)) as [[[]|e] w]; reflexivity.
Qed.

(** One turn of the loop adds at most one row, at the end of the table,
    and exactly one when it completes. *)
Lemma run_regular_body_events (P : Platform) (config : Config) (url : string)
    (s : State P) :
  exists new,
    events (snd (run_regular_body P config url s)) = (events s ++ new)%list
    /\ (List.length new <= 1)%nat
    /\ (fst (run_regular_body P config url s) = Ok tt ->
        List.length new = 1%nat).
Proof.
  rewrite run_regular_body_run.
  pose proof (run_url_frame P url s) as [Fe _].
  destruct (run_url P url s) as [[[[|] context]|e] s1]; cbn [fst snd] in *.
  - destruct (log_event_outcome P ("success " ++ url) s1)
      as [[ev [s' [E [Ev _]]]] | [e [s' [E [Ev _]]]]];
      rewrite E; cbn [fst snd]; rewrite Ev, Fe.
    + exists [ev]. auto.
    + exists []. rewrite app_nil_r.
      split; [reflexivity | split; [simpl; lia | discriminate]].
  - destruct (smtp_send_message P _ (world s1)) as [[[]|e] w].
    + match goal with
      | |- context [log_event P ?d ?st] =>
          destruct (log_event_outcome P d st)
            as [[ev [s' [E [Ev _]]]] | [e [s' [E [Ev _]]]]]
      end; rewrite E; cbn [fst snd]; rewrite Ev; cbn [events]; rewrite Fe.
      * exists [ev]. auto.
      * exists []. rewrite app_nil_r.
        split; [reflexivity | split; [simpl; lia | discriminate]].
    + exists []. rewrite app_nil_r. cbn [fst snd events].
      split; [exact Fe | split; [simpl; lia | discriminate]].
  - exists []. rewrite app_nil_r.
    split; [exact Fe | split; [simpl; lia | discriminate]].
Qed.

(** The loop only adds rows at the end of the table, at most one per
    endpoint, and exactly one per endpoint when it completes. *)
Lemma for_each_body_events (P : Platform) (config : Config)
    (us : list string) :
  forall s : State P,
  exists new,
    events (snd (for_each us (run_regular_body P config) s))
    = (events s ++ new)%list
    /\ (List.length new <= List.length us)%nat
    /\ (fst (for_each us (run_regular_body P config) s) = Ok tt ->
        List.length new = List.length us).
Proof.
  induction us as [|u us IH]; intros s; simpl.
  - exists []. rewrite app_nil_r. auto.
  - unfold bind.
    destruct (run_regular_body_events P config u s) as [n1 [E1 [L1 K1]]].
    destruct (run_regular_body P config u s) as [[[]|e] s1]; simpl in *.
    + destruct (IH s1) as [n2 [E2 [L2 K2]]].
      exists (n1 ++ n2)%list. rewrite E2, E1, <- app_assoc, length_app.
      repeat split; [lia|]. intros H. rewrite K1, K2; auto.
    + exists n1. repeat split; [exact E1 | lia | discriminate].
Qed.

(** C1, as stated, fails: a probe that completes can leave no row.  With
    the mail relay down, the probe of [localhost:23] completes (connection
    refused), the alert cannot be sent, [send_message] raises, and the turn
    ends before [log_event]: no row is added and no alert is delivered. *)
Lemma probe_completes_without_event :
  let s := Sim.fresh Sim.no_mail Sim.t0 in
  let cfg := Sim.config ["localhost:23"] in
  fst (run_url Sim.no_mail "localhost:23" s)
  = Ok (false, format_exc Sim.no_mail
                 (LibraryError "ConnectionRefusedError"
                    "[Errno 111] Connection refused"))
  /\ events (snd (run_regular_body Sim.no_mail cfg "localhost:23" s)) = []
  /\ outbox (snd (run_regular_body Sim.no_mail cfg "localhost:23" s)) = []
  /\ ~ one_event_per_completed_probe Sim.no_mail.
Proof.
  intros s cfg. repeat split.
  intros H.
  destruct (H cfg "localhost:23" s false _ _ eq_refl) as [ev [E _]].
  discriminate E.
Qed.

(** C1, amended: in regular mode, for every endpoint whose probe
    completes, whose alert the mail relay accepts when the probe failed,
    and whose row the store then accepts, the turn completes and appends
    exactly one row.  After a failed probe the alert with subject
    [[URGENT] Service failed for url {endpoint}] is delivered and the row
    is [failed {endpoint}]; after a successful probe the row is
    [success {endpoint}] and nothing is sent.  [w] is the world in which
    the row is written: the one the probe left, or the one the relay left
    when it accepted the alert. *)
Theorem regular_turn_one_event (P : Platform) (config : Config) (url : string)
    (s s1 : State P) (ok : bool) (context : string) (w : World P) :
  run_url P url s = (Ok (ok, context), s1) ->
  (if ok then w = world s1
   else smtp_send_message P (alert config url context) (world s1)
        = (Ok tt, w)) ->
  insert_accepted P ((if ok then "success " else "failed ") ++ url) w ->
  exists ev s',
    run_regular_body P config url s = (Ok tt, s')
    /\ events s' = (events s ++ [ev])%list
    /\ description ev = (if ok then "success " else "failed ") ++ url
    /\ outbox s'
       = (outbox s ++ if ok then [] else [alert config url context])%list
    /\ Subject (alert config url context)
       = "[URGENT] Service failed for url " ++ url.
Proof.
  intros Hr Hm Hst. rewrite run_regular_body_run.
  pose proof (run_url_frame P url s) as [Fe Fo]. rewrite Hr in *.
  cbn [fst snd] in *. destruct ok.
  - subst w.
    destruct (log_event_appends P ("success " ++ url) s1 Hst)
      as [ev [s' [E [Ev [D [O _]]]]]].
    exists ev, s'. rewrite E, Ev, O, Fe, Fo, app_nil_r. auto.
  - rewrite Hm.
    match goal with
    | |- context [log_event P ?d ?st] =>
        destruct (log_event_appends P d st Hst)
          as [ev [s' [E [Ev [D [O _]]]]]]
    end.
    exists ev, s'. rewrite E, Ev, O. cbn [events outbox]. rewrite Fe, Fo. auto.
Qed.

(** [regular_turn_one_event] on a refused connection, with the relay and
    the store up. *)
Lemma regular_turn_one_event_witness :
  let s := Sim.fresh Sim.healthy Sim.t0 in
  let cfg := Sim.config ["localhost:23"] in
  exists ev s',
    run_regular_body Sim.healthy cfg "localhost:23" s = (Ok tt, s')
    /\ events s' = [ev]
    /\ description ev = "failed localhost:23"
    /\ List.length (outbox s') = 1%nat.
Proof.
  intros s cfg.
  destruct (regular_turn_one_event Sim.healthy cfg "localhost:23" s _ false _
              Sim.t0 eq_refl eq_refl) as [ev [s' [E [Ev [D [O _]]]]]].
  - exists (Sim.t0 + 500000). reflexivity.
  - exists ev, s'. rewrite O. repeat split; assumption.
Defined.

(** The store is the second thing that can end a turn after a failed
    probe: with the database locked, the alert of [localhost:23] has gone
    out when [log_event] raises, and the turn leaves an alert without a
    row. *)
Example alert_without_row :
  let s := Sim.fresh Sim.no_store Sim.t0 in
  let r := run_regular_body Sim.no_store (Sim.config ["localhost:23"])
             "localhost:23" s in
  fst r = Raised (LibraryError "sqlite3.OperationalError"
                    "database is locked")
  /\ events (snd r) = []
  /\ map Subject (outbox (snd r))
     = ["[URGENT] Service failed for url localhost:23"].
Proof. repeat split. Qed.

(** C8: when classification fails for an endpoint of the list, regular
    mode raises and ends in the state reached after the endpoints listed
    before it: the failing endpoint and those after it are not probed, no
    row is written and no alert is sent for them.  Unless an earlier turn
    raised already, the exception is the one of the classification. *)
Theorem run_regular_aborts (P : Platform) (config : Config)
    (pre post : list string) (bad : string) (e : PyExc) (s : State P) :
  urls config = (pre ++ bad :: post)%list ->
  find_url_type P bad = Raised e ->
  let before := for_each pre (run_regular_body P config) s in
  exists e' new,
    run_regular P config s = (Raised e', snd before)
    /\ (fst before = Ok tt -> e' = e)
    /\ events (snd before) = (events s ++ new)%list
    /\ (List.length new <= List.length pre)%nat.
Proof.
  intros Hu Hc before. unfold run_regular. rewrite Hu, for_each_app.
  destruct (for_each_body_events P config pre s) as [new [Ev [L _]]].
  fold before in Ev. subst before.
  destruct (for_each pre (run_regular_body P config) s) as [[[]|e0] s1];
    cbn [fst snd] in *.
  - exists e, new. simpl for_each. unfold bind.
    rewrite run_regular_body_run, (run_url_unclassified P bad e s1 Hc). auto.
  - exists e0, new. repeat split; auto. discriminate.
Qed.

(** [run_regular_aborts] on the list of scenario C: nothing is written for
    [ftp://x.com] nor for the endpoint after it. *)
Lemma run_regular_aborts_witness :
  let cfg :=
    Sim.config ["https://up.example/"; "ftp://x.com"; "localhost:22"] in
  exists s',
    run_regular Sim.healthy cfg (Sim.fresh Sim.healthy Sim.t0)
    = (Raised (MonitoringException "cannot determine type: ftp://x.com"), s')
    /\ map description (events s') = ["success https://up.example/"]
    /\ netlog s' = [HttpGet "https://up.example/"].
Proof.
  intros cfg.
  destruct (run_regular_aborts Sim.healthy cfg ["https://up.example/"]
              ["localhost:22"] "ftp://x.com"
              (MonitoringException "cannot determine type: ftp://x.com")
              (Sim.fresh Sim.healthy Sim.t0) eq_refl eq_refl)
    as [e' [new [E [He _]]]].
  rewrite (He eq_refl) in E.
  eexists. split; [exact E|]. split; reflexivity.
Defined.

(** C10: in regular mode the alert goes out before the row is written.
    When the turns of the earlier endpoints complete, the probe of an
    endpoint fails and the mail relay refuses its alert, the run raises the
    relay's exception; the table is the one left by the earlier endpoints,
    which holds one row for each of them after the rows it had before, and
    no row is written for the failing endpoint. *)
Theorem alert_failure_writes_no_event (P : Platform) (config : Config)
    (pre post : list string) (url context : string) (e : PyExc)
    (s s1 s2 : State P) (w : World P) :
  urls config = (pre ++ url :: post)%list ->
  for_each pre (run_regular_body P config) s = (Ok tt, s1) ->
  run_url P url s1 = (Ok (false, context), s2) ->
  smtp_send_message P (alert config url context) (world s2) = (Raised e, w) ->
  exists s' earlier,
    run_regular P config s = (Raised e, s')
    /\ events s' = events s1
    /\ outbox s' = outbox s1
    /\ events s1 = (events s ++ earlier)%list
    /\ List.length earlier = List.length pre.
Proof.
  intros Hu Hpre Hprobe Hmail.
  destruct (for_each_body_events P config pre s) as [earlier [Ev [_ L]]].
  rewrite Hpre in Ev, L. cbn [fst snd] in Ev, L.
  pose proof (run_url_frame P url s1) as [Fe Fo]. rewrite Hprobe in Fe, Fo.
  cbn [snd] in Fe, Fo.
  eexists. exists earlier. split.
  - unfold run_regular. rewrite Hu, for_each_app, Hpre. simpl for_each.
    unfold bind. rewrite run_regular_body_run, Hprobe, Hmail. reflexivity.
  - cbn [events outbox]. auto.
Qed.

(** [alert_failure_writes_no_event] with the relay down: the first
    endpoint leaves its row, the second leaves none. *)
Lemma alert_failure_writes_no_event_witness :
  let cfg := Sim.config ["https://up.example/"; "localhost:23"] in
  exists s',
    run_regular Sim.no_mail cfg (Sim.fresh Sim.no_mail Sim.t0)
    = (Raised (LibraryError "smtplib.SMTPServerDisconnected"
                 "Connection unexpectedly closed"), s')
    /\ map description (events s') = ["success https://up.example/"].
Proof.
  intros cfg.
  destruct (alert_failure_writes_no_event Sim.no_mail cfg
              ["https://up.example/"] [] "localhost:23" _ _
              (Sim.fresh Sim.no_mail Sim.t0) _ _ _
              eq_refl eq_refl eq_refl eq_refl)
    as [s' [earlier [E [Ev _]]]].
  exists s'. split; [exact E|]. rewrite Ev. reflexivity.
Defined.

(* ===================================================================== *)
(** ** Resume mode *)
(* ===================================================================== *)

Lemma fold_left_add (xs : list Z) :
  forall a, fold_left Z.add xs a = a + sum_Z xs.
Proof.
  induction xs as [|x xs IH]; intros a; simpl; [lia|]. rewrite IH. lia.
Qed.

Lemma py_sum_sum_Z (xs : list Z) : py_sum xs = sum_Z xs.
Proof. unfold py_sum. now rewrite fold_left_add. Qed.

(** The loop of [run_resume] asks two counts per endpoint, in the order of
    the list, and leaves the state as it is. *)
Lemma resume_loop_run (P : Platform) (yesterday today : datetime)
    (us : list string) :
  forall (acc : list (string * Z * Z)) (s : State P),
    resume_loop P yesterday today us acc s
    = (Ok (acc ++ map (fun u =>
                         (u,
                          count_of P (events s) yesterday today "failed" u,
                          count_of P (events s) yesterday today "success" u))
                    us)%list,
       s).
Proof.
  induction us as [|u us IH]; intros acc s; simpl.
  - unfold ret. now rewrite app_nil_r.
  - unfold bind. rewrite !query_event_count_run, IH, <- app_assoc.
    reflexivity.
Qed.

Lemma status_line_digest_line (P : Platform) (rows : list Event)
    (yesterday today : datetime) (u : string) :
  status_line (u, count_of P rows yesterday today "failed" u,
               count_of P rows yesterday today "success" u)
  = digest_line P rows yesterday today u.
Proof. unfold status_line, digest_line. now rewrite Z.add_comm. Qed.

(** C7: resume mode reads the clock once; with [today] the value read and
    [yesterday] 24 hours before it, it counts for every configured
    endpoint the rows [failed {endpoint}] and [success {endpoint}] between
    the two, and sends one message with subject [Monitoring Daily Resume]
    whose text gives as total of errors the sum of the failed counts, as
    total of runs that sum plus the sum of the success counts, and for
    every endpoint, in the order of the list, the line
    [{endpoint}: {failed} / {failed + success}]. *)
Theorem run_resume_digest (P : Platform) (config : Config) (s : State P)
    (today : datetime) (w : World P) :
  datetime_now P (world s) = (today, w) ->
  let yesterday := minus_hours today 24 in
  let failed := count_of P (events s) yesterday today "failed" in
  let success := count_of P (events s) yesterday today "success" in
  let total_failures := sum_Z (map failed (urls config)) in
  let total_runs := total_failures + sum_Z (map success (urls config)) in
  let line := fun u =>
    u ++ ": " ++ PyStr.str_of_int (failed u) ++ " / "
    ++ PyStr.str_of_int (failed u + success u) in
  let digest :=
    PyStr.nl
    ++ "    Here is your summary from " ++ iso_seconds P yesterday
    ++ " until " ++ iso_seconds P today ++ ":" ++ PyStr.nl
    ++ PyStr.nl
    ++ "    Total Runs: " ++ PyStr.str_of_int total_runs ++ PyStr.nl
    ++ "    Total Errors:  " ++ PyStr.str_of_int total_failures ++ PyStr.nl
    ++ "    " ++ PyStr.nl
    ++ "    Per URL (url: errors / runs):" ++ PyStr.nl
    ++ "    " ++ PyStr.tab
    ++ PyStr.join (PyStr.nl ++ PyStr.tab) (map line (urls config))
    ++ PyStr.nl
    ++ PyStr.nl
    ++ "    Have a great day!" ++ PyStr.nl
    ++ "    " in
  wall_us today - wall_us yesterday = 24 * 3600 * 1000000
  /\ run_resume P config s
     = send_notification P "Monitoring Daily Resume" digest
         (from_email config) (to_email config)
         (mkState w (events s) (outbox s) (netlog s)).
Proof.
  intros Hnow yesterday failed success total_failures total_runs line digest.
  split; [unfold yesterday, minus_hours; simpl; lia|].
  unfold run_resume, bind, lift_world. rewrite Hnow.
  fold yesterday. rewrite resume_loop_run. cbn [app events].
  f_equal. unfold resume_message, digest.
  rewrite !py_sum_sum_Z, !map_map. cbn [fst snd].
  fold failed success total_failures total_runs.
  assert (L : map (fun u => status_line (u, failed u, success u)) (urls config)
              = map line (urls config)).
  { apply map_ext. intros u. apply status_line_digest_line. }
  rewrite L. reflexivity.
Qed.

(** [run_resume_digest] on the table of scenario B: three successes and
    one failure of [http://a] in the last day, one success two days old. *)
Lemma run_resume_digest_witness :
  let rows :=
    [mkEvent "1" 827200 "success http://a";
     mkEvent "2" 999000 "success http://a";
     mkEvent "3" 999100 "failed http://a";
     mkEvent "4" 999200 "success http://a";
     mkEvent "5" 999300 "success http://a"] in
  let s := @mkState Sim.healthy Sim.t0 rows [] [] in
  let today := mkDatetime Sim.t0 in
  exists s',
    run_resume Sim.healthy (Sim.config ["http://a"]) s = (Ok tt, s')
    /\ events s' = rows
    /\ map Subject (outbox s') = ["Monitoring Daily Resume"]
    /\ digest_line Sim.healthy rows (minus_hours today 24) today "http://a"
       = "http://a: 1 / 4".
Proof.
  intros rows s today.
  destruct (run_resume_digest Sim.healthy (Sim.config ["http://a"]) s today
              (Sim.t0 + 250000) eq_refl) as [_ E].
  eexists. split; [rewrite E; reflexivity|].
  repeat split.
Defined.

(* ===================================================================== *)
(** ** Further properties: the run as a whole *)
(* ===================================================================== *)






(** One turn of the loop, observed from outside.  Either it raises and
    leaves the table as it was, with the outbox as it was or, when it was
    the store that raised after a failed probe, with the alert of the
    endpoint added; or it completes, writes the one row of the endpoint
    and, after a failed probe, has delivered its alert. *)
Lemma run_regular_body_trace (P : Platform) (config : Config) (url : string)
    (s : State P) :
  (exists e s' extra,
     run_regular_body P config url s = (Raised e, s')
     /\ events s' = events s /\ outbox s' = (outbox s ++ extra)%list
     /\ (extra = [] \/ exists context, extra = [alert config url context])
     /\ (store_accepts P -> extra = []))
  \/ (exists ok context ev s',
        run_regular_body P config url s = (Ok tt, s')
        /\ events s' = (events s ++ [ev])%list
        /\ description ev = row_text (url, ok)
        /\ outbox s'
           = (outbox s ++ if ok then [] else [alert config url context])%list).
Proof.
  rewrite run_regular_body_run.
  pose proof (run_url_frame P url s) as [Fe Fo].
  destruct (run_url P url s) as [[[[|] context]|e] s1]; cbn [fst snd] in *.
  - destruct (log_event_outcome P ("success " ++ url) s1)
      as [[ev [s' [E [Ev [D [O _]]]]]] | [e [s' [E [Ev [O _]]]]]].
    + right. exists true, context, ev, s'.
      rewrite E, Ev, O, Fe, Fo, app_nil_r. auto.
    + left. exists e, s', []. rewrite E, Ev, O, Fe, Fo, app_nil_r.
      repeat split; auto.
  - destruct (smtp_send_message P _ (world s1)) as [[[]|e] w].
    + match goal with
      | |- context [log_event P ?d ?st] =>
          destruct (log_event_outcome P d st)
            as [[ev [s' [E [Ev [D [O _]]]]]] | [e [s' [E [Ev [O _]]]]]];
          pose proof (log_event_appends P d st) as Hacc
      end.
      * right. exists false, context, ev, s'. rewrite E, Ev, O.
        cbn [events outbox]. rewrite Fe, Fo. auto.
      * left. exists e, s', [alert config url context]. rewrite E, Ev, O.
        cbn [events outbox]. rewrite Fe, Fo.
        repeat split; eauto.
        intros Hst.
        destruct (Hacc (store_accepts_insert P _ _ Hst)) as [ev [s2 [E2 _]]].
        rewrite E2 in E. discriminate E.
    + left. eexists. eexists. exists []. split; [reflexivity|].
      cbn [events outbox]. rewrite app_nil_r. repeat split; auto.
  - left. exists e, s1, []. rewrite app_nil_r. repeat split; auto.
Qed.

(** The loop, observed from outside.  [outs] lists the endpoints whose
    turn completed, with the outcome of their probe; [sent] are their
    alerts, and [extra] is the alert of the endpoint at which the run
    ended, when the store refused its row. *)
Lemma for_each_body_trace (P : Platform) (config : Config) (us : list string) :
  forall s : State P,
  exists (outs : list (string * bool)) (new : list Event)
         (sent extra : list EmailMessage),
    let r := for_each us (run_regular_body P config) s in
    events (snd r) = (events s ++ new)%list
    /\ outbox (snd r) = (outbox s ++ sent ++ extra)%list
    /\ map description new = map row_text outs
    /\ map fst outs = firstn (List.length outs) us
    /\ map Subject sent
       = map alert_subject
           (map fst (filter (fun o => negb (snd o)) outs))
    /\ (forall m, In m sent ->
          From_ m = from_email config /\ To m = to_email config)
    /\ (extra = []
        \/ exists u context, In u us /\ extra = [alert config u context])
    /\ (fst r = Ok tt -> List.length outs = List.length us /\ extra = [])
    /\ (store_accepts P -> extra = []).
Proof.
  induction us as [|u us IH]; intros s.
  - exists [], [], [], []. simpl. rewrite !app_nil_r.
    repeat split; auto; contradiction.
  - simpl for_each. unfold bind.
    destruct (run_regular_body_trace P config u s)
      as [[e [s1 [extra [E [Ev [Eo [Hx Hst]]]]]]]
         | [ok [context [ev [s1 [E [Ev [D Eo]]]]]]]];
      rewrite E.
    + exists [], [], [], extra. cbn [fst snd]. rewrite !app_nil_r.
      repeat split; auto; try contradiction; try discriminate.
      destruct Hx as [Hx|[context Hx]]; [now left|].
      right. exists u, context. split; [now left | exact Hx].
    + destruct (IH s1)
        as [outs [new [sent [extra
             [Hev [Hout [Hd [Hu [Hs [Hf [Hx [Hl Hst]]]]]]]]]]]].
      cbv zeta in *.
      exists ((u, ok) :: outs), (ev :: new),
        ((if ok then [] else [alert config u context]) ++ sent)%list, extra.
      rewrite Hev, Hout, Ev, Eo, <- !app_assoc.
      split; [reflexivity|]. split; [reflexivity|].
      split; [simpl; now rewrite D, Hd|].
      split; [simpl; now rewrite Hu|].
      split; [destruct ok; simpl; [exact Hs | now rewrite Hs]|].
      split.
      * intros m Hin. apply in_app_or in Hin. destruct Hin as [Hin|Hin]; auto.
        destruct ok; simpl in Hin; [destruct Hin|].
        destruct Hin as [<-|[]]. auto.
      * split; [|split; [|exact Hst]].
        -- destruct Hx as [Hx|[v [c [Hv Hx]]]]; [now left|].
           right. exists v, c. split; [now right | exact Hx].
        -- intros H. destruct (Hl H) as [L X]. simpl. now rewrite L.
Qed.

(** X2: regular mode only appends to the table.  The rows it adds are, in
    the order of the list, the rows of the endpoints whose turn completed:
    [success {endpoint}] or [failed {endpoint}] for each endpoint of an
    initial part of the list, one row each, and for the whole list when the
    run completes.  The rows the table held before stay where they were. *)
Theorem run_regular_rows (P : Platform) (config : Config) (s : State P) :
  exists (outs : list (string * bool)) (new : list Event),
    events (snd (run_regular P config s)) = (events s ++ new)%list
    /\ map description new = map row_text outs
    /\ map fst outs = firstn (List.length outs) (urls config)
    /\ (fst (run_regular P config s) = Ok tt ->
        List.length new = List.length (urls config)).
Proof.
  destruct (for_each_body_trace P config (urls config) s)
    as [outs [new [sent [extra [Hev [_ [Hd [Hu [_ [_ [_ [Hl _]]]]]]]]]]]].
  exists outs, new. unfold run_regular. repeat split; auto.
  intros H. rewrite <- (proj1 (Hl H)), <- (length_map description new), Hd.
  apply length_map.
Qed.

(** The alerts of the completed turns and the [failed] rows match one to
    one. *)
Lemma failed_rows_alerts (outs : list (string * bool)) :
  forall new : list Event,
    map description new = map row_text outs ->
    List.length (filter (fun o => negb (snd o)) outs)
    = List.length (filter is_failed_row new).
Proof.
  induction outs as [|[u ok] outs IH]; intros [|r new] Hd;
    simpl in Hd; try discriminate; [reflexivity|].
  inversion Hd as [[D Hd']]. simpl. unfold is_failed_row at 1. rewrite D.
  destruct ok; simpl; [apply IH, Hd'|].
  replace (prefix "" u) with true by (destruct u; reflexivity).
  simpl. f_equal. apply IH, Hd'.
Qed.

(** X3: the alerts delivered and the [failed] rows written.  In every run
    of regular mode the alert goes out before the row is written, so the
    run delivers as many messages as it writes rows that start with
    [failed ], or one more; they are as many when the run completes, and
    also when the store accepts every insert, whether the run completes or
    not.  Every message goes from the configured sender to the configured
    recipient, and its subject names an endpoint of the list. *)
Theorem run_regular_alerts (P : Platform) (config : Config) (s : State P) :
  exists (new : list Event) (sent : list EmailMessage),
    let failed := List.length (filter is_failed_row new) in
    events (snd (run_regular P config s)) = (events s ++ new)%list
    /\ outbox (snd (run_regular P config s)) = (outbox s ++ sent)%list
    /\ (List.length sent = failed \/ List.length sent = S failed)
    /\ (fst (run_regular P config s) = Ok tt -> List.length sent = failed)
    /\ (store_accepts P -> List.length sent = failed)
    /\ forall m, In m sent ->
         From_ m = from_email config /\ To m = to_email config
         /\ exists u, In u (urls config) /\ Subject m = alert_subject u.
Proof.
  destruct (for_each_body_trace P config (urls config) s)
    as [outs [new [sent [extra
         [Hev [Hout [Hd [Hu [Hs [Hf [Hx [Hl Hst]]]]]]]]]]]].
  exists new, (sent ++ extra)%list. cbv zeta. unfold run_regular.
  assert (Hn : List.length sent = List.length (filter is_failed_row new)).
  { rewrite <- (length_map Subject sent), Hs, !length_map.
    apply failed_rows_alerts, Hd. }
  split; [exact Hev|]. split; [exact Hout|]. rewrite length_app.
  split; [|split; [|split]].
  - destruct Hx as [->|[u [c [_ ->]]]]; simpl; [left | right]; lia.
  - intros H. destruct (Hl H) as [_ ->]. simpl. lia.
  - intros H. rewrite (Hst H). simpl. lia.
  - intros m Hin. apply in_app_or in Hin. destruct Hin as [Hin|Hin].
    + destruct (Hf m Hin) as [F T]. repeat split; auto.
      assert (Hm : In (Subject m) (map Subject sent)) by now apply in_map.
      rewrite Hs in Hm. apply in_map_iff in Hm. destruct Hm as [u [Eu Hu']].
      exists u. split; [|now symmetry].
      apply in_map_iff in Hu'. destruct Hu' as [[u' ok] [E' Hin']].
      simpl in E'. subst u'. apply filter_In in Hin'.
      destruct Hin' as [Hin' _].
      assert (Hf' : In u (map fst outs))
        by (apply in_map_iff; exists (u, ok); auto).
      rewrite Hu in Hf'.
      rewrite <- (firstn_skipn (List.length outs) (urls config)).
      apply in_or_app. now left.
    + destruct Hx as [->|[u [c [Hu' ->]]]]; [destruct Hin|].
      destruct Hin as [<-|[]]. repeat split. exists u. split; [exact Hu'|].
      reflexivity.
Qed.

(** The two cases of [run_regular_alerts] on the list of one endpoint
    that refuses the connection: with the store up, one alert and one
    [failed] row; with the database locked, one alert and no row. *)
Example run_regular_alerts_cases :
  let cfg := Sim.config ["localhost:23"] in
  let up := snd (run_regular Sim.healthy cfg (Sim.fresh Sim.healthy Sim.t0)) in
  let locked :=
    snd (run_regular Sim.no_store cfg (Sim.fresh Sim.no_store Sim.t0)) in
  (List.length (outbox up) = 1%nat
   /\ map description (events up) = ["failed localhost:23"])
  /\ (List.length (outbox locked) = 1%nat /\ events locked = []).
Proof. repeat split. Qed.




(** X6: the TCP probe asks for at most one connection, always with a
    timeout of 10 seconds, and closes the connection it opened.  It reports
    success exactly when it has opened and closed a connection; a failure
    comes with no network operation at all (a string that does not split
    in two, a port that is no integer) or with the one refused attempt. *)
Theorem telnet_connections (P : Platform) (url : string) (s : State P) :
  exists ops,
    netlog (snd (telnet P url s)) = (netlog s ++ ops)%list
    /\ ((fst (telnet P url s) = Ok (true, "")
         /\ exists host port, ops = [TelnetOpen host port 10; TelnetClose])
        \/ (exists detail,
              fst (telnet P url s) = Ok (false, detail)
              /\ (ops = []
                  \/ exists host port, ops = [TelnetOpen host port 10]))).
Proof.
  unfold telnet, telnet_try, unpack2, py_int. unfold_script.
  destruct (PyStr.split ":" url) as [|a [|b [|c l]]]; simpl;
    try (exists []; rewrite app_nil_r; split; [reflexivity|]; right;
         eexists; split; [reflexivity | now left]).
  destruct (PyStr.int_of_str b) as [n|]; simpl.
  - destruct (telnet_open P a n 10 (world s)) as [[[]|e] w]; simpl.
    + exists [TelnetOpen a n 10; TelnetClose].
      rewrite <- app_assoc. split; [reflexivity|]. left. eauto.
    + exists [TelnetOpen a n 10]. split; [reflexivity|]. right.
      eexists. split; [reflexivity|]. right. eauto.
  - exists []. rewrite app_nil_r. split; [reflexivity|]. right.
    eexists. split; [reflexivity | now left].
Qed.

(* ===================================================================== *)
(** ** Further properties: the event store *)
(* ===================================================================== *)

Lemma count_matching_filter (event : string) (lo hi : Z) (pick : Event -> bool)
    (rows : list Event) :
  (forall r, pick r = true <-> matches event lo hi r) ->
  count_matching event lo hi rows = List.length (filter pick rows).
Proof.
  intros Hp. induction rows as [|r rest IH]; simpl; [reflexivity|].
  rewrite IH.
  destruct (matches_dec event lo hi r) as [Y|N], (pick r) eqn:E;
    simpl; try reflexivity.
  - apply Hp in Y. congruence.
  - apply Hp in E. contradiction.
Qed.

Lemma count_matching_split (event : string) (lo mid hi : Z)
    (rows : list Event) :
  lo <= mid + 1 -> mid <= hi ->
  count_matching event lo hi rows
  = (count_matching event lo mid rows
     + count_matching event (mid + 1) hi rows)%nat.
Proof.
  intros H1 H2. induction rows as [|r rest IH]; simpl; [reflexivity|].
  rewrite IH. unfold matches.
  destruct (matches_dec event lo hi r) as [[D A]|A],
           (matches_dec event lo mid r) as [[D1 B]|B],
           (matches_dec event (mid + 1) hi r) as [[D2 C]|C];
    unfold matches in *; try lia;
    exfalso; first [apply A | apply B | apply C | lia];
    (split; [assumption | lia]) || (exfalso; destruct (Z_le_dec (ts r) mid);
      [apply B | apply C]; split; auto; lia).
Qed.

(** X7: counting is additive over adjacent windows, and an inverted
    window counts nothing.  If the second window starts at the second
    after the end of the first, the count of the window from the start of
    the first to the end of the second is the sum of the two counts; if
    the end of a window lies before its start, the count is 0. *)
Theorem query_window_split (P : Platform) (event : string)
    (a b b' c : datetime) (s : State P) :
  (epoch_seconds P b' = epoch_seconds P b + 1 ->
   epoch_seconds P a <= epoch_seconds P b' ->
   epoch_seconds P b <= epoch_seconds P c ->
   exists n1 n2,
     query_event_count P event a b s = (Ok n1, s)
     /\ query_event_count P event b' c s = (Ok n2, s)
     /\ query_event_count P event a c s = (Ok (n1 + n2), s))
  /\ (epoch_seconds P c < epoch_seconds P a ->
      query_event_count P event a c s = (Ok 0, s)).
Proof.
  rewrite !query_event_count_run. split.
  - intros E H1 H2. eexists. eexists. split; [reflexivity|].
    split; [reflexivity|]. rewrite E.
    rewrite (count_matching_split event _ (epoch_seconds P b) _ (events s));
      [now rewrite Nat2Z.inj_add | lia | lia].
  - intros H. rewrite count_matching_none; [reflexivity|].
    intros r _ [_ W]. lia.
Qed.

(** [query_window_split] on a table of three rows, cut between the
    seconds 99 and 100. *)
Lemma query_window_split_witness :
  let rows := [mkEvent "a" 99 "failed x"; mkEvent "b" 100 "failed x";
               mkEvent "c" 101 "failed x"] in
  let s := @mkState Sim.healthy Sim.t0 rows [] [] in
  let at_ := fun n => mkDatetime (n * 1000000) in
  query_event_count Sim.healthy "failed x" (at_ 90) (at_ 99) s = (Ok 1, s)
  /\ query_event_count Sim.healthy "failed x" (at_ 100) (at_ 110) s
     = (Ok 2, s)
  /\ query_event_count Sim.healthy "failed x" (at_ 90) (at_ 110) s
     = (Ok 3, s).
Proof.
  intros rows s at_.
  destruct (proj1 (query_window_split Sim.healthy "failed x"
                     (at_ 90) (at_ 99) (at_ 100) (at_ 110) s))
    as [n1 [n2 [E1 [E2 E3]]]].
  - reflexivity.
  - change (90 <= 100). lia.
  - change (99 <= 110). lia.
  - repeat split.
Defined.

(** X8: an event is never missed by a window that contains the instant it
    was logged at.  If the store accepts the row and the clock reading
    that [log_event] stores lies between the timestamps of the two bounds,
    the count of that description over the window is one more after the
    append than before; the counts of all other descriptions are
    unchanged. *)
Theorem logged_event_is_counted (P : Platform) (event : string)
    (start end_ : datetime) (s : State P) (id : string) (now : Z)
    (w1 w2 w3 : World P) :
  uuid4 P (world s) = (id, w1) ->
  time_time P w1 = (now, w2) ->
  sqlite_insert P (mkEvent id (int_seconds now) event) w2 = (Ok tt, w3) ->
  timestamp P start <= now <= timestamp P end_ ->
  exists n s',
    log_event P event s = (Ok tt, s')
    /\ query_event_count P event start end_ s = (Ok n, s)
    /\ query_event_count P event start end_ s' = (Ok (n + 1), s')
    /\ forall other,
         other <> event ->
         fst (query_event_count P other start end_ s')
         = fst (query_event_count P other start end_ s).
Proof.
  intros Hid Hnow Hst [Hlo Hhi].
  assert (Hin : matches event (epoch_seconds P start) (epoch_seconds P end_)
                  (mkEvent id (int_seconds now) event)).
  { unfold matches, epoch_seconds, int_seconds. cbn [description ts].
    split; [reflexivity|]. split; apply Z.quot_le_mono; lia. }
  eexists. eexists. rewrite log_event_run, Hid, Hnow. cbv zeta. rewrite Hst.
  split; [reflexivity|]. rewrite !query_event_count_run. cbn [events].
  split; [reflexivity|]. split.
  - rewrite count_matching_app. cbn [count_matching].
    destruct (matches_dec event _ _ _) as [Y|N]; [|contradiction].
    rewrite Nat2Z.inj_add. reflexivity.
  - intros other Ho. rewrite !query_event_count_run. cbn [fst events].
    rewrite count_matching_app. cbn [count_matching].
    destruct (matches_dec other _ _ _) as [[Y _]|N].
    + cbn [description] in Y. congruence.
    + now rewrite Nat.add_0_r.
Qed.

(** [logged_event_is_counted] with a window of one microsecond around the
    instant of the append. *)
Lemma logged_event_is_counted_witness :
  let s := Sim.fresh Sim.healthy Sim.t0 in
  let inst := mkDatetime (Sim.t0 + 250000) in
  query_event_count Sim.healthy "failed x" inst inst
    (snd (log_event Sim.healthy "failed x" s))
  = (Ok 1, snd (log_event Sim.healthy "failed x" s)).
Proof.
  intros s inst.
  destruct (logged_event_is_counted Sim.healthy "failed x" inst inst s
              _ _ _ _ _ eq_refl eq_refl eq_refl) as [n [s' [E [Q0 [Q1 _]]]]].
  - simpl. lia.
  - rewrite E. cbn [snd]. rewrite Q1. f_equal. f_equal.
    assert (H0 : query_event_count Sim.healthy "failed x" inst inst s
                 = (Ok 0, s)) by reflexivity.
    rewrite H0 in Q0. inversion Q0. reflexivity.
Defined.

(** X9: the bounds of a window are cut to whole seconds.  For bounds at
    or after the epoch, the rows counted are those of the description whose
    second [t] satisfies [start < (t + 1) s] and [t s <= end]: the upper
    bound is exact, while a row in the second in which [start] falls is
    counted even when [start] lies later in that second. *)
Theorem query_window_microseconds (P : Platform) (event : string)
    (start end_ : datetime) (s : State P) (pick : Event -> bool) :
  0 <= timestamp P start ->
  0 <= timestamp P end_ ->
  (forall r, pick r = true
             <-> description r = event
                 /\ timestamp P start < (ts r + 1) * 1000000
                 /\ ts r * 1000000 <= timestamp P end_) ->
  query_event_count P event start end_ s
  = (Ok (Z.of_nat (List.length (filter pick (events s)))), s).
Proof.
  intros H0 H1 Hp. rewrite query_event_count_run.
  rewrite (count_matching_filter event _ _ pick); [reflexivity|].
  intros r. rewrite Hp. unfold matches, epoch_seconds, int_seconds.
  rewrite !Z.quot_div_nonneg by lia.
  pose proof (Z.div_mod (timestamp P start) 1000000 ltac:(lia)) as Ds.
  pose proof (Z.mod_pos_bound (timestamp P start) 1000000 ltac:(lia)) as Bs.
  pose proof (Z.div_mod (timestamp P end_) 1000000 ltac:(lia)) as De.
  pose proof (Z.mod_pos_bound (timestamp P end_) 1000000 ltac:(lia)) as Be.
  split; intros [D W]; (split; [exact D | lia]).
Qed.

(** [query_window_microseconds]: a row of second 100 is counted by a
    window that starts 0.9 s after the start of that second. *)
Lemma query_window_microseconds_witness :
  let rows := [mkEvent "a" 100 "failed x"] in
  let s := @mkState Sim.healthy Sim.t0 rows [] [] in
  query_event_count Sim.healthy "failed x" (mkDatetime 100900000)
    (mkDatetime 200000000) s
  = (Ok 1, s).
Proof.
  intros rows s.
  rewrite (query_window_microseconds Sim.healthy "failed x"
             (mkDatetime 100900000) (mkDatetime 200000000) s
             (fun r => (description r =? "failed x")%string
                       && (100900000 <? (ts r + 1) * 1000000)
                       && (ts r * 1000000 <=? 200000000))).
  - reflexivity.
  - simpl. lia.
  - simpl. lia.
  - intros r. simpl.
    rewrite !andb_true_iff, String.eqb_eq, Z.ltb_lt, Z.leb_le. tauto.
Defined.

(* ===================================================================== *)
(** ** Further properties: the totals of the digest *)
(* ===================================================================== *)

Lemma sum_Z_cons (x : Z) (xs : list Z) : sum_Z (x :: xs) = x + sum_Z xs.
Proof. reflexivity. Qed.

Lemma sum_Z_nonneg (xs : list Z) :
  (forall x, In x xs -> 0 <= x) -> 0 <= sum_Z xs.
Proof.
  induction xs as [|x xs IH]; intros H; [unfold sum_Z; simpl; lia|].
  rewrite sum_Z_cons. pose proof (H x (or_introl eq_refl)).
  assert (0 <= sum_Z xs) by (apply IH; intros; apply H; now right). lia.
Qed.

Lemma sum_Z_map_add {A} (f g : A -> Z) (xs : list A) :
  sum_Z (map (fun x => f x + g x) xs) = sum_Z (map f xs) + sum_Z (map g xs).
Proof.
  induction xs as [|x xs IH]; [reflexivity|].
  cbn [map]. rewrite !sum_Z_cons, IH. lia.
Qed.

Lemma sum_Z_map_zero {A} (f : A -> Z) (xs : list A) :
  (forall x, In x xs -> f x = 0) -> sum_Z (map f xs) = 0.
Proof.
  induction xs as [|x xs IH]; intros H; [reflexivity|].
  cbn [map]. rewrite sum_Z_cons, (H x (or_introl eq_refl)), IH; [reflexivity|].
  intros y Hy. apply H. now right.
Qed.

Lemma where_clause_in_window (event : string) (lo hi : Z) (r : Event) :
  where_clause event lo hi r
  = (description r =? event)%string && in_window lo hi r.
Proof.
  unfold where_clause, in_window. now rewrite Z.geb_leb, andb_assoc.
Qed.

Lemma count_matching_cons (event : string) (lo hi : Z) (r : Event)
    (rest : list Event) :
  Z.of_nat (count_matching event lo hi (r :: rest))
  = (if where_clause event lo hi r then 1 else 0)
    + Z.of_nat (count_matching event lo hi rest).
Proof.
  cbn [count_matching]. destruct (matches_dec event lo hi r) as [Y|N].
  - apply where_clause_matches in Y. rewrite Y. lia.
  - destruct (where_clause event lo hi r) eqn:E; [|lia].
    apply where_clause_matches in E. contradiction.
Qed.

(** The sum over the endpoints of the two counts of each is the sum over
    the rows of their multiplicities. *)
Lemma sum_counts_by_row (lo hi : Z) (us : list string) (rows : list Event) :
  sum_Z (map (fun u =>
                Z.of_nat (count_matching ("failed " ++ u) lo hi rows)
                + Z.of_nat (count_matching ("success " ++ u) lo hi rows)) us)
  = sum_Z (map (multiplicity lo hi us) rows).
Proof.
  induction rows as [|r rest IH].
  - cbn [map count_matching]. apply sum_Z_map_zero. reflexivity.
  - cbn [map]. rewrite sum_Z_cons, <- IH. unfold multiplicity.
    rewrite <- sum_Z_map_add. f_equal. apply map_ext. intros u.
    rewrite !count_matching_cons. unfold row_hits. lia.
Qed.

Lemma row_hits_range (lo hi : Z) (r : Event) (u : string) :
  row_hits lo hi r u
  = if ((description r =? "failed " ++ u)%string
        || (description r =? "success " ++ u)%string)
       && in_window lo hi r
    then 1 else 0.
Proof.
  unfold row_hits. rewrite !where_clause_in_window.
  destruct (description r =? "failed " ++ u)%string eqn:F;
    destruct (description r =? "success " ++ u)%string eqn:S0;
    destruct (in_window lo hi r); try reflexivity.
  apply String.eqb_eq in F, S0. rewrite F in S0. discriminate S0.
Qed.

Lemma multiplicity_nonneg (lo hi : Z) (us : list string) (r : Event) :
  0 <= multiplicity lo hi us r.
Proof.
  apply sum_Z_nonneg. intros x Hx. apply in_map_iff in Hx.
  destruct Hx as [u [<- _]]. rewrite row_hits_range.
  destruct (_ && _); lia.
Qed.

(** A row is counted at least once when it belongs to an endpoint of the
    list and lies in the window, and never otherwise. *)
Lemma multiplicity_bounds (lo hi : Z) (us : list string) (r : Event) :
  (if probe_row_in us lo hi r then 1 else 0) <= multiplicity lo hi us r
  /\ (probe_row_in us lo hi r = false -> multiplicity lo hi us r = 0).
Proof.
  unfold probe_row_in. rewrite <- andb_assoc. fold (in_window lo hi r).
  induction us as [|u us [IH1 IH2]].
  - cbn [existsb andb]. split; [unfold multiplicity; simpl; lia | reflexivity].
  - unfold multiplicity in *. cbn [map existsb]. rewrite sum_Z_cons.
    rewrite row_hits_range.
    pose proof (multiplicity_nonneg lo hi us r) as Hn.
    unfold multiplicity in Hn.
    destruct ((description r =? "failed " ++ u)%string
              || (description r =? "success " ++ u)%string);
      destruct (in_window lo hi r); cbn [orb andb] in *;
      try rewrite andb_false_r in *; split; try lia; try discriminate;
      try (intros H; rewrite (IH2 H); lia);
      try (intros _; rewrite IH2; [lia | reflexivity]).
Qed.

(** With no endpoint listed twice, a row is counted at most once. *)
Lemma multiplicity_nodup (lo hi : Z) (us : list string) (r : Event) :
  NoDup us ->
  multiplicity lo hi us r = if probe_row_in us lo hi r then 1 else 0.
Proof.
  intros ND. induction ND as [|u us Hnin ND IH].
  - reflexivity.
  - destruct (multiplicity_bounds lo hi us r) as [_ Hz].
    unfold multiplicity in *. cbn [map]. rewrite sum_Z_cons, row_hits_range.
    unfold probe_row_in in *. cbn [existsb].
    rewrite <- !andb_assoc in *. fold (in_window lo hi r) in *.
    destruct (in_window lo hi r);
      [|rewrite !andb_false_r in *; rewrite IH; reflexivity].
    rewrite !andb_true_r in *.
    destruct ((description r =? "failed " ++ u)%string
              || (description r =? "success " ++ u)%string) eqn:Hu;
      cbn [orb]; [|rewrite IH; lia].
    rewrite Hz; [reflexivity|].
    destruct (existsb _ us) eqn:Ex; [|reflexivity]. exfalso.
    apply existsb_exists in Ex. destruct Ex as [v [Hv Hd]].
    apply orb_true_iff in Hu, Hd.
    destruct Hu as [Hu|Hu], Hd as [Hd|Hd];
      apply String.eqb_eq in Hu, Hd; rewrite Hu in Hd; simpl in Hd;
      inversion Hd; subst v; contradiction.
Qed.

(** X10: the totals of the digest.  For the list the loop of [run_resume]
    builds, the total of errors is never negative and never exceeds the
    total of runs.  The total of runs is at least the number of rows in
    the window that belong to a configured endpoint, and it is that
    number when no endpoint is listed twice (the loop counts once per entry
    of the list, so the rows of an endpoint listed twice count twice). *)
Theorem resume_totals_count (P : Platform) (yesterday today : datetime)
    (us : list string) (s : State P) :
  exists l,
    resume_loop P yesterday today us [] s = (Ok l, s)
    /\ 0 <= fst (resume_totals l) <= snd (resume_totals l)
    /\ Z.of_nat (List.length
                   (filter (probe_row_in us (epoch_seconds P yesterday)
                              (epoch_seconds P today)) (events s)))
       <= snd (resume_totals l)
    /\ (NoDup us ->
        snd (resume_totals l)
        = Z.of_nat (List.length
                      (filter (probe_row_in us (epoch_seconds P yesterday)
                                 (epoch_seconds P today)) (events s)))).
Proof.
  eexists. split; [apply resume_loop_run|].
  cbn [app]. unfold resume_totals. cbn [fst snd].
  rewrite !py_sum_sum_Z, !map_map. cbn [fst snd].
  set (lo := epoch_seconds P yesterday). set (hi := epoch_seconds P today).
  set (F := sum_Z (map (fun u => count_of P (events s) yesterday today
                                   "failed" u) us)).
  set (S0 := sum_Z (map (fun u => count_of P (events s) yesterday today
                                    "success" u) us)).
  assert (HF : 0 <= F).
  { apply sum_Z_nonneg. intros x Hx. apply in_map_iff in Hx.
    destruct Hx as [u [<- _]]. unfold count_of. lia. }
  assert (HS : 0 <= S0).
  { apply sum_Z_nonneg. intros x Hx. apply in_map_iff in Hx.
    destruct Hx as [u [<- _]]. unfold count_of. lia. }
  assert (HR : F + S0 = sum_Z (map (multiplicity lo hi us) (events s))).
  { unfold F, S0. rewrite <- sum_Z_map_add. apply sum_counts_by_row. }
  rewrite HR. split; [rewrite <- HR; lia|].
  split.
  - clear. induction (events s) as [|r rest IH]; [reflexivity|].
    cbn [map filter]. rewrite sum_Z_cons.
    destruct (multiplicity_bounds lo hi us r) as [Hge _].
    destruct (probe_row_in us lo hi r); cbn [List.length]; lia.
  - intros ND. clear - ND. induction (events s) as [|r rest IH]; [reflexivity|].
    cbn [map filter]. rewrite sum_Z_cons, IH, (multiplicity_nodup lo hi us r ND).
    destruct (probe_row_in us lo hi r); cbn [List.length]; lia.
Qed.

(** An endpoint listed twice is counted once per entry of the list. *)
Example resume_totals_listed_twice :
  let rows := [mkEvent "1" 999000 "success http://a"] in
  let s := @mkState Sim.healthy Sim.t0 rows [] [] in
  let today := mkDatetime Sim.t0 in
  exists l,
    resume_loop Sim.healthy (minus_hours today 24) today
      ["http://a"; "http://a"] [] s = (Ok l, s)
    /\ resume_totals l = (0, 2).
Proof. intros rows s today. eexists. split; reflexivity. Qed.

(* ===================================================================== *)
(** ** Further properties: the list of endpoints *)
(* ===================================================================== *)

Lemma existsb_str_app (p : ascii -> bool) (a b : string) :
  PyStr.existsb_str p (a ++ b)
  = PyStr.existsb_str p a || PyStr.existsb_str p b.
Proof.
  induction a as [|c a IH]; simpl; [reflexivity|].
  now rewrite IH, orb_assoc.
Qed.

Lemma remove_app (p : ascii -> bool) (a b : string) :
  PyStr.remove p (a ++ b) = PyStr.remove p a ++ PyStr.remove p b.
Proof.
  induction a as [|c a IH]; simpl; [reflexivity|].
  destruct (p c); simpl; now rewrite IH.
Qed.

Lemma remove_free (p : ascii -> bool) (s : string) :
  free_of p s -> PyStr.remove p s = s.
Proof.
  unfold free_of. induction s as [|c s IH]; simpl; [reflexivity|].
  intros H. apply orb_false_iff in H. destruct H as [Hc Hs].
  now rewrite Hc, IH.
Qed.

Lemma split_single (c : ascii) (s : string) :
  free_of (Ascii.eqb c) s -> PyStr.split c s = [s].
Proof.
  unfold free_of. induction s as [|a r IH]; simpl; [reflexivity|].
  intros H. apply orb_false_iff in H. destruct H as [Ha Hr].
  rewrite (IH Hr). rewrite Ascii.eqb_sym in Ha. now rewrite Ha.
Qed.

Lemma split_app_sep (c : ascii) (a b : string) :
  free_of (Ascii.eqb c) a ->
  PyStr.split c (a ++ String c b) = a :: PyStr.split c b.
Proof.
  unfold free_of. induction a as [|x a IH]; simpl.
  - intros _. rewrite Ascii.eqb_refl.
    destruct (PyStr.split c b) eqn:E; [now destruct (split_nonempty c b)|].
    reflexivity.
  - intros H. apply orb_false_iff in H. destruct H as [Hx Ha].
    rewrite (IH Ha). rewrite Ascii.eqb_sym in Hx. now rewrite Hx.
Qed.

Lemma split_join (c : ascii) (us : list string) :
  us <> [] ->
  (forall u, In u us -> free_of (Ascii.eqb c) u) ->
  PyStr.split c (PyStr.join (String c "") us) = us.
Proof.
  induction us as [|x [|y r] IH]; intros Hne Hfree; [now destruct Hne| |].
  - simpl. apply split_single. apply Hfree. now left.
  - change (PyStr.join (String c "") (x :: y :: r))
      with (x ++ String c (PyStr.join (String c "") (y :: r))).
    rewrite split_app_sep by (apply Hfree; now left).
    rewrite IH; [reflexivity | discriminate |].
    intros u Hu. apply Hfree. now right.
Qed.

Lemma remove_join (p : ascii -> bool) (sep : string) (us : list string) :
  (forall u, In u us -> free_of p u) ->
  PyStr.remove p (PyStr.join sep us)
  = PyStr.join (PyStr.remove p sep) us.
Proof.
  induction us as [|x [|y r] IH]; intros Hfree; [reflexivity| |].
  - simpl. apply remove_free, Hfree. now left.
  - change (PyStr.join sep (x :: y :: r))
      with (x ++ sep ++ PyStr.join sep (y :: r)).
    change (PyStr.join (PyStr.remove p sep) (x :: y :: r))
      with (x ++ PyStr.remove p sep ++ PyStr.join (PyStr.remove p sep) (y :: r)).
    rewrite !remove_app, IH, (remove_free p x);
      [reflexivity | apply Hfree; now left |].
    intros u Hu. apply Hfree. now right.
Qed.

Lemma is_newline_is_space (c : ascii) :
  is_newline c = true -> PyStr.is_space c = true.
Proof.
  unfold is_newline, PyStr.is_space, PyStr.in_range. intros H.
  apply Nat.eqb_eq in H. rewrite H. reflexivity.
Qed.

(** On a string whose white space is made of newlines, [strip] removes
    nothing that [replace] would keep: on the left ... *)
Lemma remove_lstrip (s : string) :
  spaces_are_newlines s ->
  PyStr.remove is_newline (PyStr.lstrip PyStr.is_space s)
  = PyStr.remove is_newline s
  /\ spaces_are_newlines (PyStr.lstrip PyStr.is_space s).
Proof.
  unfold spaces_are_newlines.
  induction s as [|c s IH]; intros H; [split; [reflexivity | exact H]|].
  simpl in H. apply andb_true_iff in H. destruct H as [Hc Hs]. simpl.
  destruct (PyStr.is_space c) eqn:Sc.
  - simpl in Hc. rewrite Hc. now apply IH.
  - split; [reflexivity|]. simpl. now rewrite Sc, Hs.
Qed.

(** ... and on the right. *)
Lemma remove_rstrip (s : string) :
  spaces_are_newlines s ->
  PyStr.remove is_newline (PyStr.rstrip PyStr.is_space s)
  = PyStr.remove is_newline s.
Proof.
  unfold spaces_are_newlines, PyStr.rstrip.
  set (go := fix go (s0 : string) : option string :=
         match s0 with
         | EmptyString => None
         | String c r =>
             match go r with
             | Some r' => Some (String c r')
             | None => if PyStr.is_space c then None
                       else Some (String c EmptyString)
             end
         end).
  induction s as [|c s IH]; intros H; [reflexivity|].
  simpl in H. apply andb_true_iff in H. destruct H as [Hc Hs].
  specialize (IH Hs).
  change (go (String c s))
    with (match go s with
          | Some r' => Some (String c r')
          | None => if PyStr.is_space c then None
                    else Some (String c EmptyString)
          end).
  destruct (go s) as [r'|].
  - simpl. now rewrite IH.
  - destruct (PyStr.is_space c) eqn:Sc.
    + simpl in Hc. simpl. now rewrite Hc.
    + simpl. now rewrite <- IH.
Qed.

Lemma remove_strip (s : string) :
  spaces_are_newlines s ->
  PyStr.remove is_newline (py_strip s) = PyStr.remove is_newline s.
Proof.
  intros H. unfold py_strip. destruct (remove_lstrip s H) as [E H'].
  now rewrite (remove_rstrip _ H'), E.
Qed.

Lemma forallb_str_app (p : ascii -> bool) (a b : string) :
  PyStr.forallb_str p (a ++ b)
  = PyStr.forallb_str p a && PyStr.forallb_str p b.
Proof.
  induction a as [|c a IH]; simpl; [reflexivity|].
  now rewrite IH, andb_assoc.
Qed.

Lemma free_spaces_are_newlines (s : string) :
  free_of PyStr.is_space s -> spaces_are_newlines s.
Proof.
  unfold free_of, spaces_are_newlines.
  induction s as [|c s IH]; simpl; [reflexivity|].
  intros H. apply orb_false_iff in H. destruct H as [Hc Hs].
  now rewrite Hc, IH.
Qed.

Lemma join_spaces_are_newlines (sep : string) (us : list string) :
  spaces_are_newlines sep ->
  (forall u, In u us -> free_of PyStr.is_space u) ->
  spaces_are_newlines (PyStr.join sep us).
Proof.
  intros Hsep. induction us as [|x [|y r] IH]; intros Hfree; [reflexivity| |].
  - simpl. apply free_spaces_are_newlines, Hfree. now left.
  - change (PyStr.join sep (x :: y :: r))
      with (x ++ sep ++ PyStr.join sep (y :: r)).
    unfold spaces_are_newlines in *. rewrite !forallb_str_app.
    rewrite (free_spaces_are_newlines x) by (apply Hfree; now left).
    rewrite Hsep, IH; [reflexivity|]. intros u Hu. apply Hfree. now right.
Qed.

Lemma free_of_or (p q : ascii -> bool) (s : string) :
  free_of (fun c => p c || q c) s <-> free_of p s /\ free_of q s.
Proof.
  unfold free_of. induction s as [|c s IH]; simpl; [tauto|].
  rewrite !orb_false_iff, IH. tauto.
Qed.

Lemma free_of_weaken (p q : ascii -> bool) (s : string) :
  (forall c, q c = true -> p c = true) -> free_of p s -> free_of q s.
Proof.
  unfold free_of. intros H. induction s as [|c s IH]; simpl; [reflexivity|].
  intros Hs. apply orb_false_iff in Hs. destruct Hs as [Hc Hs].
  rewrite (IH Hs). destruct (q c) eqn:Q; [|reflexivity].
  rewrite (H c Q) in Hc. discriminate.
Qed.

(** X11: the list of endpoints is read back as it was written.  A
    non-empty list of endpoints that contain neither a comma nor white
    space, written on one line with commas between them or on several
    lines with a comma at the end of each line but the last, is the list
    [get_config] returns. *)
Theorem config_urls_roundtrip (us : list string) (sep : string) :
  us <> [] ->
  sep = "," \/ sep = "," ++ PyStr.nl ->
  (forall u, In u us ->
     free_of (fun c => PyStr.is_space c || Ascii.eqb "," c) u) ->
  config_urls (PyStr.join sep us) = us.
Proof.
  intros Hne Hsep Hfree.
  assert (Hsp : forall u, In u us -> free_of PyStr.is_space u).
  { intros u Hu. now apply (free_of_or PyStr.is_space (Ascii.eqb ",")), Hfree. }
  assert (Hco : forall u, In u us -> free_of (Ascii.eqb ",") u).
  { intros u Hu. now apply (free_of_or PyStr.is_space (Ascii.eqb ",")), Hfree. }
  assert (Hnl : forall u, In u us -> free_of is_newline u).
  { intros u Hu. apply (free_of_weaken PyStr.is_space); auto.
    apply is_newline_is_space. }
  unfold config_urls. rewrite remove_strip.
  - rewrite (remove_join is_newline sep us Hnl).
    replace (PyStr.remove is_newline sep) with ","
      by (destruct Hsep as [-> | ->]; reflexivity).
    now apply split_join.
  - apply join_spaces_are_newlines; [|exact Hsp].
    destruct Hsep as [-> | ->]; reflexivity.
Qed.

(** [config_urls_roundtrip] on three endpoints written on three lines. *)
Lemma config_urls_roundtrip_witness :
  config_urls
    (PyStr.join ("," ++ PyStr.nl)
       ["https://up.example/"; "localhost:22"; "localhost:23"])
  = ["https://up.example/"; "localhost:22"; "localhost:23"].
Proof.
  apply config_urls_roundtrip.
  - discriminate.
  - now right.
  - intros u Hu. simpl in Hu.
    destruct Hu as [<-|[<-|[<-|[]]]]; reflexivity.
Defined.

Lemma count_char_remove (c : ascii) (p : ascii -> bool) (s : string) :
  p c = false -> count_char c (PyStr.remove p s) = count_char c s.
Proof.
  intros Hc. induction s as [|a s IH]; simpl; [reflexivity|].
  destruct (p a) eqn:Pa; simpl; rewrite IH; [|reflexivity].
  destruct (Ascii.eqb a c) eqn:E; [|reflexivity].
  apply Ascii.eqb_eq in E. congruence.
Qed.

Lemma count_char_lstrip (c : ascii) (p : ascii -> bool) (s : string) :
  p c = false -> count_char c (PyStr.lstrip p s) = count_char c s.
Proof.
  intros Hc. induction s as [|a s IH]; simpl; [reflexivity|].
  destruct (p a) eqn:Pa; [|reflexivity]. rewrite IH.
  destruct (Ascii.eqb a c) eqn:E; [|reflexivity].
  apply Ascii.eqb_eq in E. congruence.
Qed.

Lemma count_char_rstrip (c : ascii) (p : ascii -> bool) (s : string) :
  p c = false -> count_char c (PyStr.rstrip p s) = count_char c s.
Proof.
  intros Hc. unfold PyStr.rstrip.
  set (go := fix go (s0 : string) : option string :=
         match s0 with
         | EmptyString => None
         | String c r =>
             match go r with
             | Some r' => Some (String c r')
             | None => if p c then None else Some (String c EmptyString)
             end
         end).
  induction s as [|a s IH]; [reflexivity|].
  change (go (String a s))
    with (match go s with
          | Some r' => Some (String a r')
          | None => if p a then None else Some (String a EmptyString)
          end).
  destruct (go s) as [r'|].
  - simpl in *. now rewrite IH.
  - simpl in IH. destruct (p a) eqn:Pa; simpl; rewrite <- IH; simpl;
      [|lia].
    destruct (Ascii.eqb a c) eqn:E; [|reflexivity].
    apply Ascii.eqb_eq in E. congruence.
Qed.

(** The pieces of a split contain no separator, and nothing else that the
    string does not contain. *)
Lemma split_pieces_free (c : ascii) (p : ascii -> bool) (s : string) :
  (forall a, p a = true -> Ascii.eqb a c = false -> 
             PyStr.existsb_str (Ascii.eqb a) s = false) ->
  p c = true ->
  forall u, In u (PyStr.split c s) -> free_of p u.
Proof.
  unfold free_of. intros Hs Hc. induction s as [|a r IH]; simpl.
  - intros u [<-|[]]. reflexivity.
  - assert (Hr : forall a0, p a0 = true -> Ascii.eqb a0 c = false ->
                   PyStr.existsb_str (Ascii.eqb a0) r = false).
    { intros a0 P0 E0. specialize (Hs a0 P0 E0). simpl in Hs.
      now apply orb_false_iff in Hs. }
    specialize (IH Hr).
    destruct (PyStr.split c r) as [|x xs] eqn:E;
      [now destruct (split_nonempty c r)|].
    destruct (Ascii.eqb a c) eqn:Eac.
    + intros u [<-|Hu]; [reflexivity | now apply IH].
    + intros u [<-|Hu]; [|apply IH; now right].
      simpl. rewrite (IH x (or_introl eq_refl)), orb_false_r.
      destruct (p a) eqn:Pa; [|reflexivity].
      specialize (Hs a Pa Eac). simpl in Hs.
      now rewrite Ascii.eqb_refl in Hs.
Qed.

Lemma remove_is_free (p : ascii -> bool) (s : string) :
  free_of p (PyStr.remove p s).
Proof.
  unfold free_of. induction s as [|a s IH]; simpl; [reflexivity|].
  destruct (p a) eqn:Pa; simpl; [exact IH | now rewrite Pa, IH].
Qed.

(** X12: the list of endpoints of [get_config] is never empty: it has one
    entry more than the value of [urls] has commas, so an empty value gives
    one empty endpoint.  No entry contains a comma or a newline; other
    white space inside the value, such as a blank after a comma, stays in
    the entry. *)
Theorem config_urls_entries (raw : string) :
  List.length (config_urls raw) = S (count_char "," raw)
  /\ (forall u, In u (config_urls raw) ->
        free_of (fun c => Ascii.eqb c "," || is_newline c) u)
  /\ config_urls "" = [""]
  /\ config_urls "a, b" = ["a"; " b"].
Proof.
  split; [|split; [|split; reflexivity]].
  - unfold config_urls, py_strip.
    rewrite split_length, count_char_remove, count_char_rstrip,
      count_char_lstrip; reflexivity.
  - unfold config_urls. apply split_pieces_free; [|reflexivity].
    intros a Pa Ea. rewrite Ea in Pa. simpl in Pa.
    pose proof (remove_is_free is_newline (py_strip raw)) as F.
    unfold free_of in F.
    induction (PyStr.remove is_newline (py_strip raw)) as [|x s IH];
      simpl in *; [reflexivity|].
    apply orb_false_iff in F. destruct F as [Fx Fs]. rewrite (IH Fs).
    destruct (Ascii.eqb a x) eqn:E; [|reflexivity].
    apply Ascii.eqb_eq in E. congruence.
Qed.

(* ===================================================================== *)
(** ** Further properties: which descriptors are TCP endpoints *)
(* ===================================================================== *)

(** The statements of this section are about platforms whose [urlparse]
    is the model [Urllib.urlparse]. *)

Ltac ascii_cases c := destruct c as [[] [] [] [] [] [] [] []].

Lemma scheme_char_facts (c : ascii) :
  Urllib.is_scheme_char c = true ->
  Ascii.eqb ":" c = false /\ Urllib.is_unsafe c = false.
Proof. intros H. ascii_cases c; (discriminate H || (split; reflexivity)). Qed.

Lemma alpha_not_c0 (c : ascii) :
  PyStr.is_ascii_alpha c = true -> Urllib.is_c0_or_space c = false.
Proof. intros H. ascii_cases c; (discriminate H || reflexivity). Qed.

Lemma decimal_cases (c : ascii) :
  PyStr.is_decimal c = true ->
  In c ["0"; "1"; "2"; "3"; "4"; "5"; "6"; "7"; "8"; "9"]%char.
Proof.
  intros H. ascii_cases c; try discriminate H; simpl; tauto.
Qed.

Lemma decimal_char_facts (c : ascii) :
  PyStr.is_decimal c = true ->
  Urllib.is_unsafe c = false /\ PyStr.is_space c = false
  /\ PyStr.is_digit_char c = true /\ Urllib.is_c0_or_space c = false
  /\ PyStr.is_ascii_alpha c = false
  /\ forall x, In x [":"; "#"; "?"; ";"; "/"; "."]%char -> Ascii.eqb x c = false.
Proof.
  intros H. apply decimal_cases in H. simpl in H.
  repeat (destruct H as [<-|H]; [repeat split; intros x Hx; simpl in Hx;
    repeat (destruct Hx as [<-|Hx]; [reflexivity|]); destruct Hx|]).
  destruct H.
Qed.

Lemma forallb_str_free (p q : ascii -> bool) (s : string) :
  (forall c, p c = true -> q c = false) ->
  PyStr.forallb_str p s = true -> free_of q s.
Proof.
  unfold free_of. intros H. induction s as [|c s IH]; simpl; [reflexivity|].
  intros Hs. apply andb_true_iff in Hs. destruct Hs as [Hc Hs].
  now rewrite (H c Hc), IH.
Qed.

Lemma free_of_app (p : ascii -> bool) (a b : string) :
  free_of p a -> free_of p b -> free_of p (a ++ b).
Proof.
  unfold free_of. intros Ha Hb. now rewrite existsb_str_app, Ha, Hb.
Qed.

Lemma partition_none (c : ascii) (s : string) :
  free_of (Ascii.eqb c) s -> PyStr.partition c s = None.
Proof.
  unfold free_of. induction s as [|a s IH]; simpl; [reflexivity|].
  intros H. apply orb_false_iff in H. destruct H as [Ha Hs].
  rewrite Ascii.eqb_sym in Ha. now rewrite Ha, IH.
Qed.

Lemma partition_app_sep (c : ascii) (a b : string) :
  free_of (Ascii.eqb c) a ->
  PyStr.partition c (a ++ String c b) = Some (a, b).
Proof.
  unfold free_of. induction a as [|x a IH]; simpl.
  - intros _. now rewrite Ascii.eqb_refl.
  - intros H. apply orb_false_iff in H. destruct H as [Hx Ha].
    rewrite Ascii.eqb_sym in Hx. now rewrite Hx, IH.
Qed.

Lemma lstrip_free (p : ascii -> bool) (s : string) :
  free_of p s -> PyStr.lstrip p s = s.
Proof.
  unfold free_of. destruct s as [|c s]; simpl; [reflexivity|].
  intros H. apply orb_false_iff in H. destruct H as [Hc _]. now rewrite Hc.
Qed.

Lemma rstrip_free (p : ascii -> bool) (s : string) :
  free_of p s -> PyStr.rstrip p s = s.
Proof.
  unfold free_of, PyStr.rstrip.
  set (go := fix go (s0 : string) : option string :=
         match s0 with
         | EmptyString => None
         | String c r =>
             match go r with
             | Some r' => Some (String c r')
             | None => if p c then None else Some (String c EmptyString)
             end
         end).
  assert (G : forall t, PyStr.existsb_str p t = false ->
                match go t with Some r => r | None => EmptyString end = t
                /\ (go t = None -> t = EmptyString)).
  { induction t as [|c t IH]; intros H; [split; reflexivity|].
    simpl in H. apply orb_false_iff in H. destruct H as [Hc Ht].
    destruct (IH Ht) as [E N].
    change (go (String c t))
      with (match go t with
            | Some r' => Some (String c r')
            | None => if p c then None else Some (String c EmptyString)
            end).
    destruct (go t) as [r'|].
    - split; [simpl in *; now rewrite E | discriminate].
    - rewrite Hc. rewrite (N eq_refl). split; [reflexivity | discriminate]. }
  intros H. apply G, H.
Qed.

(** The value [int()] reads from a string of decimal digits. *)
Lemma int_digits_decimal (s : string) :
  PyStr.forallb_str PyStr.is_decimal s = true ->
  forall acc b,
    (s <> EmptyString \/ b = true) ->
    PyStr.int_digits s acc b
    = Some (fold_left (fun a c => 10 * a + Z.of_nat (PyStr.code c - 48))
              (list_ascii_of_string s) acc).
Proof.
  induction s as [|c s IH]; intros H acc b Hb.
  - destruct Hb as [Hb| ->]; [now destruct Hb | reflexivity].
  - simpl in H. apply andb_true_iff in H. destruct H as [Hc Hs].
    simpl. rewrite Hc. apply IH; auto.
Qed.

Lemma decimal_not_int_space (c : ascii) :
  PyStr.is_decimal c = true -> PyStr.is_int_space c = false.
Proof.
  intros H. apply decimal_cases in H. simpl in H.
  repeat (destruct H as [<-|H]; [reflexivity|]). destruct H.
Qed.

Lemma count_str_all (p : ascii -> bool) (s : string) :
  PyStr.forallb_str p s = true -> PyStr.count_str p s = String.length s.
Proof.
  induction s as [|c s IH]; simpl; [reflexivity|].
  intros H. apply andb_true_iff in H. destruct H as [Hc Hs].
  now rewrite Hc, (IH Hs).
Qed.

(** [int()] on a string of decimal digits: its value, unless the string
    is longer than the limit. *)
Lemma int_of_str_decimal (port : string) :
  decimal port = true ->
  PyStr.int_of_str port
  = if PyStr.int_max_str_digits <? Z.of_nat (String.length port) then None
    else Some (decimal_value port).
Proof.
  intros H. destruct port as [|d rest]; [discriminate|].
  unfold decimal in H.
  assert (Hsp : free_of PyStr.is_int_space (String d rest)).
  { apply (forallb_str_free PyStr.is_decimal); auto.
    intros c Hc. apply decimal_not_int_space, Hc. }
  unfold PyStr.int_of_str. rewrite (lstrip_free _ _ Hsp), (rstrip_free _ _ Hsp).
  assert (Hne : String d rest <> EmptyString) by discriminate.
  pose proof (int_digits_decimal (String d rest) H 0 false (or_introl Hne))
    as E.
  assert (L : PyStr.int_literal (String d rest)
              = if PyStr.int_max_str_digits
                   <? Z.of_nat (String.length (String d rest))
                then None
                else Some (decimal_value (String d rest))).
  { unfold PyStr.int_literal. rewrite (count_str_all _ _ H), E.
    reflexivity. }
  assert (Hd : PyStr.is_decimal d = true).
  { cbn [PyStr.forallb_str] in H. now apply andb_true_iff in H. }
  clear H Hsp Hne E. apply decimal_cases in Hd. cbn [In] in Hd.
  repeat (destruct Hd as [<-|Hd]; [exact L|]). destruct Hd.
Qed.

Lemma scheme_char_delims (c : ascii) :
  Urllib.is_scheme_char c = true ->
  forall x, In x [":"; "#"; "?"; ";"]%char -> Ascii.eqb x c = false.
Proof.
  intros H x Hx. simpl in Hx.
  destruct Hx as [<-|[<-|[<-|[<-|[]]]]];
    ascii_cases c; (discriminate H || reflexivity).
Qed.

Lemma decimal_rest_facts (s : string) :
  PyStr.forallb_str PyStr.is_decimal s = true ->
  forall x, In x [":"; "#"; "?"; ";"; "/"; "."]%char ->
            free_of (Ascii.eqb x) s.
Proof.
  intros H x Hx. apply (forallb_str_free PyStr.is_decimal); auto.
  intros c Hc. now apply decimal_char_facts.
Qed.

Lemma scheme_rest_facts (s : string) :
  PyStr.forallb_str Urllib.is_scheme_char s = true ->
  forall x, In x [":"; "#"; "?"; ";"]%char -> free_of (Ascii.eqb x) s.
Proof.
  intros H x Hx. apply (forallb_str_free Urllib.is_scheme_char); auto.
  intros c Hc. now apply scheme_char_delims.
Qed.

Lemma decimal_isdigit (port : string) :
  decimal port = true -> PyStr.isdigit port = true.
Proof.
  destruct port as [|d rest]; [discriminate|]. unfold decimal, PyStr.isdigit.
  generalize (String d rest). intros s. induction s as [|c s IH]; simpl;
    [reflexivity|].
  intros H. apply andb_true_iff in H. destruct H as [Hc Hs].
  rewrite (IH Hs), andb_true_r. now apply decimal_char_facts.
Qed.

Lemma colon_not_isdigit (s : string) :
  PyStr.existsb_str (Ascii.eqb ":") s = true -> PyStr.isdigit s = false.
Proof.
  intros H. destruct s as [|a s]; [discriminate|]. unfold PyStr.isdigit.
  revert H. generalize (String a s). clear. intros s.
  induction s as [|c s IH]; cbn [PyStr.existsb_str PyStr.forallb_str];
    [discriminate|].
  intros H. apply orb_true_iff in H. destruct H as [H|H].
  - apply Ascii.eqb_eq in H. subst c. reflexivity.
  - rewrite (IH H). apply andb_false_r.
Qed.

(** What [urlparse] makes of [host:port] when the host looks like a
    scheme. *)
Lemma urlparse_host_port (host port : string) :
  scheme_like host = true -> decimal port = true ->
  Urllib.urlparse (host ++ ":" ++ port)
  = Ok (mkParseResult (PyStr.lower host) "" port "" "" "").
Proof.
  intros Hh Hp.
  destruct host as [|c0 h]; [discriminate|].
  destruct port as [|d rest]; [discriminate|].
  unfold scheme_like in Hh. apply andb_true_iff in Hh. destruct Hh as [Ha Hs].
  unfold decimal in Hp.
  assert (Hd : PyStr.is_decimal d = true).
  { cbn [PyStr.forallb_str] in Hp. now apply andb_true_iff in Hp. }
  assert (Fcolon : free_of (Ascii.eqb ":") (String c0 h))
    by (apply (scheme_rest_facts _ Hs); simpl; tauto).
  assert (Funsafe : free_of Urllib.is_unsafe
                      (String c0 h ++ ":" ++ String d rest)).
  { apply free_of_app.
    - apply (forallb_str_free Urllib.is_scheme_char); auto.
      intros c Hc. apply scheme_char_facts, Hc.
    - apply (free_of_app _ ":"); [reflexivity|].
      apply (forallb_str_free PyStr.is_decimal); auto.
      intros c Hc. apply decimal_char_facts, Hc. }
  unfold Urllib.urlparse, Urllib.urlsplit.
  replace (PyStr.lstrip Urllib.is_c0_or_space
             (String c0 h ++ ":" ++ String d rest))
    with (String c0 h ++ ":" ++ String d rest)
    by (change (String c0 h ++ ":" ++ String d rest)
          with (String c0 (h ++ ":" ++ String d rest));
        cbn [PyStr.lstrip]; now rewrite (alpha_not_c0 c0 Ha)).
  rewrite (remove_free _ _ Funsafe).
  unfold Urllib.split_scheme.
  change (String c0 h ++ ":" ++ String d rest)
    with (String c0 h ++ String ":" (String d rest)).
  rewrite (partition_app_sep ":" _ _ Fcolon), Ha, Hs. cbn [andb].
  remember (PyStr.lower (String c0 h)) as sch eqn:Esch.
  pose proof (decimal_rest_facts (String d rest) Hp) as Fr.
  assert (Q1 : PyStr.partition "#" (String d rest) = None)
    by (apply partition_none, Fr; simpl; tauto).
  assert (Q2 : PyStr.partition "?" (String d rest) = None)
    by (apply partition_none, Fr; simpl; tauto).
  assert (Q3 : PyStr.contains ";" (String d rest) = false)
    by (apply Fr; simpl; tauto).
  clear Hp Hs Ha Fcolon Funsafe Fr.
  apply decimal_cases in Hd. cbn [In] in Hd.
  repeat (destruct Hd as [<-|Hd];
    [cbv beta iota; rewrite Q1; cbv beta iota; rewrite Q2; cbv beta iota;
     rewrite Q3, andb_false_r; reflexivity|]).
  destruct Hd.
Qed.

(** What [urlparse] makes of [host:port] when the host starts with a
    digit: no scheme, and the whole descriptor as path. *)
Lemma urlparse_digit_first (host port : string) :
  digit_first host = true -> decimal port = true ->
  Urllib.urlparse (host ++ ":" ++ port)
  = Ok (mkParseResult "" "" (host ++ ":" ++ port) "" "" "").
Proof.
  intros Hh Hp.
  destruct host as [|c0 h]; [discriminate|].
  unfold digit_first in Hh. apply andb_true_iff in Hh. destruct Hh as [Hd Hs].
  assert (Hp' : PyStr.forallb_str PyStr.is_decimal port = true)
    by (destruct port; [discriminate | exact Hp]).
  assert (Fcolon : free_of (Ascii.eqb ":") (String c0 h))
    by (apply (scheme_rest_facts _ Hs); simpl; tauto).
  assert (Fall : forall x, In x ["#"; "?"; ";"]%char ->
                   free_of (Ascii.eqb x) (String c0 h ++ ":" ++ port)).
  { intros x Hx. apply free_of_app.
    - apply (scheme_rest_facts _ Hs). simpl in *. tauto.
    - apply (free_of_app _ ":").
      + simpl in Hx. destruct Hx as [<-|[<-|[<-|[]]]]; reflexivity.
      + apply (decimal_rest_facts _ Hp'). simpl in *. tauto. }
  assert (Funsafe : free_of Urllib.is_unsafe (String c0 h ++ ":" ++ port)).
  { apply free_of_app.
    - apply (forallb_str_free Urllib.is_scheme_char); auto.
      intros c Hc. apply scheme_char_facts, Hc.
    - apply (free_of_app _ ":"); [reflexivity|].
      apply (forallb_str_free PyStr.is_decimal); auto.
      intros c Hc. apply decimal_char_facts, Hc. }
  destruct (decimal_char_facts c0 Hd) as [_ [_ [_ [Hc0 [Hal _]]]]].
  unfold Urllib.urlparse, Urllib.urlsplit.
  replace (PyStr.lstrip Urllib.is_c0_or_space (String c0 h ++ ":" ++ port))
    with (String c0 h ++ ":" ++ port)
    by (change (String c0 h ++ ":" ++ port)
          with (String c0 (h ++ ":" ++ port));
        cbn [PyStr.lstrip]; now rewrite Hc0).
  rewrite (remove_free _ _ Funsafe).
  unfold Urllib.split_scheme.
  change (String c0 h ++ ":" ++ port) with (String c0 h ++ String ":" port).
  rewrite (partition_app_sep ":" _ _ Fcolon), Hal. cbn [andb].
  change (String c0 h ++ String ":" port)
    with (String c0 (h ++ ":" ++ port)) in *.
  assert (Q1 : PyStr.partition "#" (String c0 (h ++ ":" ++ port)) = None)
    by (apply partition_none, Fall; simpl; tauto).
  assert (Q2 : PyStr.partition "?" (String c0 (h ++ ":" ++ port)) = None)
    by (apply partition_none, Fall; simpl; tauto).
  assert (Q3 : PyStr.contains ";" (String c0 (h ++ ":" ++ port)) = false)
    by (apply Fall; simpl; tauto).
  clear Hs Fcolon Fall Funsafe Hc0 Hal.
  generalize dependent (h ++ ":" ++ port). intros tail Q1 Q2 Q3.
  apply decimal_cases in Hd. cbn [In] in Hd.
  repeat (destruct Hd as [<-|Hd];
    [cbv beta iota; rewrite Q1; cbv beta iota; rewrite Q2; cbv beta iota;
     rewrite Q3, andb_false_r; reflexivity|]).
  destruct Hd.
Qed.

(** X13: which descriptors are TCP endpoints, with CPython 3.11's
    [urlparse].  For a host that starts with an ASCII letter and is made
    of letters, digits, [+], [-] and [.], and a port made of decimal
    digits, [host:port] is classified as a TCP endpoint, unless the host is
    [http] or [https] in any case, which makes it a URL.  [run_url] then
    asks for one connection to the host as written and to the port read as
    a decimal number, and reports what that attempt gives; a port of more
    digits than [int()] reads (4300) fails the probe with the traceback of
    the [ValueError], and no connection is asked for. *)
Theorem tcp_endpoint_probed (P : Platform) (host port : string)
    (s : State P) :
  (forall url, urlparse P url = Urllib.urlparse url) ->
  scheme_like host = true ->
  decimal port = true ->
  ((PyStr.lower host = "http" \/ PyStr.lower host = "https") ->
   find_url_type P (host ++ ":" ++ port) = Ok "urllib")
  /\ (PyStr.lower host <> "http" -> PyStr.lower host <> "https" ->
      find_url_type P (host ++ ":" ++ port) = Ok "telnet"
      /\ run_url P (host ++ ":" ++ port) s
         = if PyStr.int_max_str_digits <? Z.of_nat (String.length port)
           then (Ok (false, format_exc P (IntLiteralError port)), s)
           else
             match telnet_open P host (decimal_value port) 10 (world s) with
             | (Ok _, w) =>
                 (Ok (true, ""),
                  after_net s w
                    [TelnetOpen host (decimal_value port) 10; TelnetClose])
             | (Raised e, w) =>
                 (Ok (false, format_exc P e),
                  after_net s w [TelnetOpen host (decimal_value port) 10])
             end).
Proof.
  intros Hparse Hh Hp.
  assert (Hc : find_url_type P (host ++ ":" ++ port)
               = if (PyStr.lower host =? "http")%string
                    || (PyStr.lower host =? "https")%string
                 then Ok "urllib" else Ok "telnet").
  { unfold find_url_type.
    rewrite Hparse, (urlparse_host_port host port Hh Hp). cbn [scheme path].
    now rewrite (decimal_isdigit port Hp). }
  split.
  - intros [E|E]; rewrite Hc, E; reflexivity.
  - intros N1 N2. apply String.eqb_neq in N1, N2. rewrite N1, N2 in Hc.
    cbn [orb] in Hc. split; [exact Hc|].
    unfold run_url, bind, lift_result. rewrite Hc. cbv beta iota.
    change (("telnet" =? "urllib")%string) with false. cbv beta iota.
    change (("telnet" =? "telnet")%string) with true. cbv beta iota.
    unfold telnet, try_except.
    assert (Hsplit : PyStr.split ":" (host ++ ":" ++ port) = [host; port]).
    { change (host ++ ":" ++ port) with (host ++ String ":" port).
      rewrite split_app_sep, split_single; [reflexivity| |].
      - destruct port as [|d rest]; [discriminate|].
        apply (decimal_rest_facts _ Hp). simpl. tauto.
      - destruct host as [|c0 h]; [discriminate|].
        unfold scheme_like in Hh. apply andb_true_iff in Hh.
        apply (scheme_rest_facts _ (proj2 Hh)). simpl. tauto. }
    pose proof (int_of_str_decimal port Hp) as Hint.
    destruct (PyStr.int_max_str_digits <? Z.of_nat (String.length port)).
    + now rewrite (telnet_try_bad_port P _ host port s Hsplit Hint).
    + rewrite (telnet_try_connect P _ host port (decimal_value port) s Hsplit
                 Hint).
      destruct (telnet_open P host (decimal_value port) 10 (world s))
        as [[[]|e] w]; reflexivity.
Qed.

(** [tcp_endpoint_probed] on the listening port of the simulated host. *)
Lemma tcp_endpoint_probed_witness :
  run_url Sim.healthy "localhost:22" (Sim.fresh Sim.healthy Sim.t0)
  = (Ok (true, ""),
     @mkState Sim.healthy Sim.t0 [] []
       [TelnetOpen "localhost" 22 10; TelnetClose]).
Proof.
  destruct (tcp_endpoint_probed Sim.healthy "localhost" "22"
              (Sim.fresh Sim.healthy Sim.t0) (fun url => eq_refl)
              eq_refl eq_refl) as [_ H].
  destruct H as [_ E]; [discriminate | discriminate |].
  exact E.
Defined.

(** X14: a host that starts with a digit is not a TCP endpoint, with
    CPython 3.11's [urlparse].  For a host that starts with a decimal
    digit, an IPv4 address in particular, and a decimal port, [urlparse]
    finds no scheme and returns the whole of [host:port] as path;
    classification fails with the script's exception, and [run_url] raises
    it without any network operation. *)
Theorem digit_first_host_rejected (P : Platform) (host port : string)
    (s : State P) :
  (forall url, urlparse P url = Urllib.urlparse url) ->
  digit_first host = true ->
  decimal port = true ->
  run_url P (host ++ ":" ++ port) s
  = (Raised (MonitoringException
               ("cannot determine type: " ++ host ++ ":" ++ port)), s).
Proof.
  intros Hparse Hh Hp. apply run_url_unclassified.
  unfold find_url_type.
  rewrite Hparse, (urlparse_digit_first host port Hh Hp). cbn [scheme path].
  change (("" =? "http")%string) with false.
  change (("" =? "https")%string) with false. cbn [orb].
  rewrite colon_not_isdigit; [reflexivity|].
  rewrite existsb_str_app. change (":" ++ port) with (String ":" port).
  cbn [PyStr.existsb_str]. rewrite Ascii.eqb_refl. cbn [orb].
  apply orb_true_r.
Qed.

(** [digit_first_host_rejected] on an IPv4 address. *)
Lemma digit_first_host_rejected_witness :
  run_url Sim.healthy "127.0.0.1:80" (Sim.fresh Sim.healthy Sim.t0)
  = (Raised (MonitoringException "cannot determine type: 127.0.0.1:80"),
     Sim.fresh Sim.healthy Sim.t0).
Proof.
  exact (digit_first_host_rejected Sim.healthy "127.0.0.1" "80"
           (Sim.fresh Sim.healthy Sim.t0) (fun url => eq_refl)
           eq_refl eq_refl).
Defined.
